(** * Session coordinator of [src/util/auth.js]

    A shallow embedding of the authentication hook ([useAuthProvider]), the
    data merge stage ([useMergeExtraData]), the presentation formatter
    ([useFormatUser]) and the gate ([requireAuth]), followed by the
    properties of the specification that concern them.

    JavaScript objects are finite maps from property names to values
    ([gmap string value]); the three-valued user ([null] while loading,
    [false] when signed out, an object when signed in) is kept exactly as
    the source has it, and the tagged unions of the specification are
    related to it by explicit encodings. *)

From stdpp Require Import gmap strings list fin_maps pretty.
From Stdlib Require Import ZArith.

Set Warnings "-register-all".
Local Open Scope string_scope.

(** ** JavaScript values *)

(** Numbers are restricted to integers: the program never computes with
    them, it only tests them for truthiness. *)
Inductive value :=
| VUndefined
| VNull
| VBool (b : bool)
| VNum (n : Z)
| VStr (s : string)
| VArr (l : list value)
| VObj (m : gmap string value).

(** What a [throw] can carry: an arbitrary value (the provider's [error]
    object), an [Error] built by [new Error(message)], or the runtime's
    [TypeError] raised when a property of [null] or [undefined] is read. *)
Inductive exn :=
| Thrown (v : value)
| Error (message : string)
| TypeError.

Inductive result (A : Type) :=
| Ok (a : A)
| Err (e : exn).
Arguments Ok {A} a.
Arguments Err {A} e.

#[export] Instance result_ret : MRet result := @Ok.
#[export] Instance result_fmap : FMap result := fun A B f r =>
  match r with
  | Ok a => Ok (f a)
  | Err e => Err e
  end.
#[export] Instance result_bind : MBind result := fun A B f r =>
  match r with
  | Ok a => f a
  | Err e => Err e
  end.

(** [!v]: the falsy values are [undefined], [null], [false], [0] and the
    empty string; every object and every array is truthy. *)
Definition truthy (v : value) : bool :=
  match v with
  | VUndefined | VNull => false
  | VBool b => b
  | VNum n => negb (n =? 0)%Z
  | VStr s => negb (String.eqb s "")
  | VArr _ | VObj _ => true
  end.

(** [a === b]. Objects and arrays compare by reference; the operands the
    program compares come from separate allocations, so two of them are
    never equal. *)
Definition strict_eq (a b : value) : bool :=
  match a, b with
  | VUndefined, VUndefined => true
  | VNull, VNull => true
  | VBool x, VBool y => Bool.eqb x y
  | VNum x, VNum y => (x =? y)%Z
  | VStr x, VStr y => String.eqb x y
  | _, _ => false
  end.

(** [Array.prototype.includes] (SameValueZero, which is [===] in the
    absence of NaN). *)
Definition includes (l : list value) (x : value) : bool :=
  existsb (fun y => strict_eq y x) l.

(** [o.k] for a property name [k] that no prototype defines (all the names
    this program reads are such): a TypeError on [null] and [undefined],
    the own property of an object, [undefined] otherwise. *)
Definition get (o : value) (k : string) : result value :=
  match o with
  | VUndefined | VNull => Err TypeError
  | VObj m => Ok (default VUndefined (m !! k))
  | _ => Ok VUndefined
  end.

Definition chars (s : string) : list value :=
  (fun c => VStr (String c "")) <$> String.list_ascii_of_string s.

(** [o[i]] for an index [i]. *)
Definition get_index (o : value) (i : nat) : result value :=
  match o with
  | VUndefined | VNull => Err TypeError
  | VArr l => Ok (default VUndefined (l !! i))
  | VStr s => Ok (default VUndefined (chars s !! i))
  | VObj m => Ok (default VUndefined (m !! pretty i))
  | _ => Ok VUndefined
  end.

Definition indexed (l : list value) : gmap string value :=
  list_to_map (imap (fun i x => (pretty i, x)) l).

(** The own enumerable properties copied by a spread [...v] and by a rest
    pattern: those of an object, the elements of an array and the
    characters of a string under their indices, none for the other
    primitives (spreading [null] or [undefined] copies nothing). *)
Definition own_props (v : value) : gmap string value :=
  match v with
  | VObj m => m
  | VArr l => indexed l
  | VStr s => indexed (chars s)
  | _ => ∅
  end.

(** [{ ...base, ...v }] continued from the properties [base] written so
    far: properties of [v] replace those already there. *)
Definition spread (v : value) (base : gmap string value) : gmap string value :=
  own_props v ∪ base.

(** String conversion, as a template literal applies it. *)
Fixpoint to_string (v : value) : string :=
  match v with
  | VUndefined => "undefined"
  | VNull => "null"
  | VBool true => "true"
  | VBool false => "false"
  | VNum n => pretty n
  | VStr s => s
  | VArr l =>
      let element x :=
        match x with
        | VUndefined | VNull => ""
        | _ => to_string x
        end in
      (fix join (l : list value) : string :=
         match l with
         | [] => ""
         | [x] => element x
         | x :: (_ :: _) as r => element x ++ "," ++ join r
         end) l
  | VObj _ => "[object Object]"
  end.

Definition nl : string := String (Ascii.ascii_of_nat 10) "".

(** ** The profile query, [useUser] of [./db]

    The hook is outside this file; [useMergeExtraData] reads three fields
    of what it returns. *)
Record query := Query { data : value; status : string; error : value }.

(** ** Data merge stage *)

Definition MERGE_DB_USER : bool := true.

(** [`Error: ${message} This happened while ...`] *)
Definition fetch_error_message (message : string) : string :=
  nl ++ "          Error: " ++ message ++ nl ++
  "          This happened while attempting to fetch extra user data from the database" ++ nl ++
  "          to include with the authenticated user. Make sure the database is setup or" ++ nl ++
  "          disable merging extra user data by setting MERGE_DB_USER to false." ++ nl ++
  "        ".

(** [enabled && user && user.id], the key handed to [useUser]. *)
Definition query_key (user : value) (enabled : bool) : result value :=
  if enabled then (if truthy user then get user "id" else Ok user)
  else Ok (VBool false).

(** The memoised body of [useMergeExtraData], given what [useUser]
    returned. *)
Definition mergeExtraData (user : value) (enabled : bool) (q : query) : result value :=
  if negb enabled || negb (truthy user) then Ok user
  else if String.eqb (status q) "success" then
    if strict_eq (data q) VNull then Ok VNull
    else Ok (VObj (spread (data q) (spread user ∅)))
  else if String.eqb (status q) "error" then
    message ← get (error q) "message";
    Err (Error (fetch_error_message (to_string message)))
  else Ok VNull.

Definition useMergeExtraData (useUser : value → query) (user : value) (enabled : bool)
  : result value :=
  key ← query_key user enabled;
  mergeExtraData user enabled (useUser key).

(** ** Presentation formatter *)

(** [(user.customers && user.customers[0]) || {}] *)
Definition customer_of (user : value) : result value :=
  customers ← get user "customers";
  first ← (if truthy customers then get_index customers 0 else Ok customers);
  Ok (if truthy first then first else VObj ∅).

Section Formatter.
(** The two imported helpers: [camelcase-keys], and [getFriendlyPlanId]
    of [./prices]. *)
Variable camelcaseKeys : value → value.
Variable getFriendlyPlanId : value → value.

Definition useFormatUser (user : value) : result value :=
  if negb (truthy user) then Ok user
  else
    app_metadata ← get user "app_metadata";
    provider ← get app_metadata "provider";
    let provider :=
      if strict_eq provider (VStr "email") then VStr "password" else provider in
    let providers := VArr [provider] in
    customer ← customer_of user;
    id ← get user "id";
    price ← get customer "stripe_price_id";
    let plan :=
      if truthy price then VObj {[ "planId" := getFriendlyPlanId price ]}
      else price in
    subscription ← get customer "stripe_subscription_status";
    Ok (VObj
          (<["planIsActive" :=
               VBool (includes [VStr "active"; VStr "trialing"] subscription)]>
             (spread plan
                (spread (camelcaseKeys customer)
                   (<["providers" := providers]>
                      (<["uid" := id]> (spread user ∅))))))).

(** [finalUser] of [useAuthProvider]: the merge, then the formatter. An
    exception thrown by the merge leaves the render before the formatter
    is called. *)
Definition finalUser (useUser : value → query) (user : value) : result value :=
  merged ← useMergeExtraData useUser user MERGE_DB_USER;
  useFormatUser merged.
End Formatter.

(** ** Asynchronous operations

    A promise chain or an [async] function is a tree of the effects it
    performs: calls to the identity provider and the profile store, whose
    settlement it awaits, and updates of the React state [user]. *)

Inductive ext_call :=
| AuthSignUp (credentials : value)
| AuthSignIn (credentials options : value)
| AuthSignOut
| AuthResetPasswordForEmail (email : value)
| AuthUpdate (attributes : value)
| DbUpdateUser (uid fields : value).

Inductive proc (A : Type) :=
| Ret (a : A)
| Throw (e : exn)
| Await (c : ext_call) (k : value → proc A)
| SetUser (u : value) (k : proc A)
| Forever.
Arguments Ret {A} a.
Arguments Throw {A} e.
Arguments Await {A} c k.
Arguments SetUser {A} u k.
Arguments Forever {A}.

Fixpoint proc_bind {A B : Type} (f : A → proc B) (p : proc A) : proc B :=
  match p with
  | Ret a => f a
  | Throw e => Throw e
  | Await c k => Await c (fun v => proc_bind f (k v))
  | SetUser u k => SetUser u (proc_bind f k)
  | Forever => Forever
  end.

#[export] Instance proc_ret : MRet proc := @Ret.
#[export] Instance proc_mbind : MBind proc := @proc_bind.

(** Synchronous code inside a [then] callback or an [async] function: what
    it throws rejects the promise. *)
Definition lift {A : Type} (r : result A) : proc A :=
  match r with
  | Ok a => Ret a
  | Err e => Throw e
  end.

(** [new Promise(executor)]: the executor is handed the two resolving
    functions and the promise takes the first settlement it requests; when
    it requests none, and keeps neither function, nothing can settle the
    promise later. *)
Inductive settlement :=
| Resolve (v : value)
| Reject (e : exn).

Definition new_Promise
  (executor : (value → settlement) → (exn → settlement) → list settlement) : proc value :=
  match executor Resolve Reject with
  | [] => Forever
  | Resolve v :: _ => Ret v
  | Reject e :: _ => Throw e
  end.

(** The state an operation runs against: the React state [user] of
    [useAuthProvider] and the calls issued so far, oldest first. *)
Record world := World { user : value; issued : list ext_call }.

Inductive outcome (A : Type) :=
| Pending
| Fulfilled (a : A)
| Rejected (e : exn).
Arguments Pending {A}.
Arguments Fulfilled {A} a.
Arguments Rejected {A} e.

(** The state of the returned promise after [turns] turns of the event
    loop, each delivering the settlement of one external call. [remote] is
    how each external call settles. *)
Fixpoint run {A : Type} (remote : ext_call → result value) (turns : nat)
  (p : proc A) (w : world) : outcome A * world :=
  match p with
  | Ret a => (Fulfilled a, w)
  | Throw e => (Rejected e, w)
  | SetUser u k => run remote turns k (World u (issued w))
  | Await c k =>
      let w' := World (user w) (issued w ++ [c]) in
      match turns with
      | O => (Pending, w')
      | S n =>
          match remote c with
          | Ok v => run remote n (k v) w'
          | Err e => (Rejected e, w')
          end
      end
  | Forever => (Pending, w)
  end.

(** ** Session state machine: the operations of [useAuthProvider] *)

Definition handleError (response : value) : result value :=
  error ← get response "error";
  if truthy error then Err (Thrown error) else Ok response.

Definition unconfirmed_email_message : string :=
  "Thanks for signing up! Please check your email to complete the process.".

Definition handleAuth (response : value) : proc value :=
  user ← lift (get response "user");
  email_confirmed_at ← lift (get user "email_confirmed_at");
  if negb (truthy email_confirmed_at) then Throw (Error unconfirmed_email_message)
  else SetUser user (Ret user).

Definition credentials (email password : value) : value :=
  VObj (<["password" := password]> {[ "email" := email ]}).

Definition signup (email password : value) : proc value :=
  Await (AuthSignUp (credentials email password))
    (fun response => response ← lift (handleError response); handleAuth response).

Definition signin (email password : value) : proc value :=
  Await (AuthSignIn (credentials email password) VUndefined)
    (fun response => response ← lift (handleError response); handleAuth response).

(** [origin] is [window.location.origin]. *)
Definition signinWithProvider (origin : string) (name : value) : proc value :=
  Await (AuthSignIn (VObj {[ "provider" := name ]})
           (VObj {[ "redirectTo" := VStr (origin ++ "/dashboard") ]}))
    (fun response =>
       _ ← lift (handleError response);
       new_Promise (fun _ _ => [])).

Definition signout : proc value :=
  Await AuthSignOut (fun response => lift (handleError response)).

Definition sendPasswordResetEmail (email : value) : proc value :=
  Await (AuthResetPasswordForEmail email) (fun response => lift (handleError response)).

Definition confirmPasswordReset (password code : value) : result value :=
  Err (Error "This functionality is not supported by Supabase").

Definition updatePassword (password : value) : proc value :=
  Await (AuthUpdate (VObj {[ "password" := password ]}))
    (fun response => lift (handleError response)).

Definition confirmation_pending_message : string :=
  "To complete this process click the confirmation links sent to your new and old email addresses".

(** [user] is the state the closure was created with. *)
Definition updateProfile (user : value) (data : value) : proc value :=
  email ← lift (get data "email");
  let other := delete "email" (own_props data) in
  changed ← lift (if truthy email
                  then current ← get user "email"; Ok (negb (strict_eq email current))
                  else Ok false);
  if changed : bool then
    Await (AuthUpdate (VObj {[ "email" := email ]}))
      (fun response =>
         _ ← lift (handleError response);
         Throw (Error confirmation_pending_message))
  else if (0 <? size other)%nat then
    id ← lift (get user "id");
    Await (DbUpdateUser id (VObj other)) (fun _ => Ret VUndefined)
  else Ret VUndefined.

(** The callback given to [onAuthStateChange]. *)
Definition onAuthStateChange (session : value) : proc value :=
  if truthy session then
    user ← lift (get session "user");
    SetUser user (Ret VUndefined)
  else SetUser (VBool false) (Ret VUndefined).

(** The mount effect up to the subscription: [hash] is
    [window.location.hash], [session] what [supabase.auth.session()]
    returns. *)
Definition initialize (hash : string) (session : value) : proc value :=
  if String.index 0 "#access_token=" hash is None
  then onAuthStateChange session
  else Ret VUndefined.

(** ** Gate: [requireAuth]

    The value read from [authContext] is the object literal that
    [useAuthProvider] returns; every render of [AuthProvider] evaluates
    that literal again and so allocates a new object. The gate reads its
    [user] field and hands the object itself to [useEffect] as the only
    dependency, which React compares with [Object.is]. *)

Record auth := Auth { auth_ref : nat; auth_user : value }.

Inductive element :=
| PageLoader
| Component (props : value).

(** What the gated component returns. *)
Definition requireAuth_render (a : auth) (props : value) : element :=
  if negb (truthy (auth_user a)) then PageLoader else Component props.

(** The body of its effect: the [history.replace] calls it makes. *)
Definition requireAuth_effect (a : auth) : list string :=
  if strict_eq (auth_user a) (VBool false) then ["/auth/signin"] else [].

(** [useEffect(f, [auth])]: [f] runs after the first render and after each
    render whose [auth] is not the object of the render before. *)
Definition effect_due (previous : option nat) (a : auth) : bool :=
  match previous with
  | None => true
  | Some r => negb (r =? auth_ref a)%nat
  end.

(** A mounted gate under its provider: the object currently in the
    context, the next free object identity, the dependency the gate's
    effect last saw, and the [history.replace] calls made so far. *)
Record page := Page {
  context : auth;
  next_ref : nat;
  seen : option nat;
  replaced : list string
}.

(** One render of the gated component followed by its effect. *)
Definition gate_pass (props : value) (p : page) : element * page :=
  let a := context p in
  (requireAuth_render a props,
   Page a (next_ref p) (Some (auth_ref a))
     (replaced p ++ (if effect_due (seen p) a then requireAuth_effect a else []))).

Inductive render :=
| ProviderRender (final : value) (props : value)
| GateRender (props : value).

(** [ProviderRender final props]: [AuthProvider] renders, [finalUser] is
    [final], a new context object is allocated and the gate below renders
    with it. [GateRender props]: the gated component renders again on its
    own, the context unchanged. *)
Definition render_step (r : render) (p : page) : element * page :=
  match r with
  | ProviderRender final props =>
      gate_pass props
        (Page (Auth (next_ref p) final) (S (next_ref p)) (seen p) (replaced p))
  | GateRender props => gate_pass props p
  end.

(** The mount: the provider's first render, the gate's first render. *)
Definition mount (final props : value) : element * page :=
  gate_pass props (Page (Auth 0 final) 1 None []).

Definition renders (rs : list render) (p : page) : page :=
  foldl (fun p r => snd (render_step r p)) p rs.

(** The [finalUser] each render of the gate saw, [current] being the one
    in the context before the list. *)
Fixpoint users_seen (rs : list render) (current : value) : list value :=
  match rs with
  | [] => []
  | ProviderRender final _ :: rs => final :: users_seen rs final
  | GateRender _ :: rs => current :: users_seen rs current
  end.

(** The number of renders that see [false] right after a render that saw
    something else, [previous] being what was seen before the list. *)
Fixpoint entries_into_anonymous (previous : value) (us : list value) : nat :=
  match us with
  | [] => 0
  | u :: us =>
      (if strict_eq u (VBool false) && negb (strict_eq previous (VBool false))
       then 1 else 0) + entries_into_anonymous u us
  end.

(** The number of provider renders whose [finalUser] is [false]. *)
Fixpoint anonymous_provider_renders (rs : list render) : nat :=
  match rs with
  | [] => 0
  | ProviderRender final _ :: rs =>
      (if strict_eq final (VBool false) then 1 else 0) + anonymous_provider_renders rs
  | GateRender _ :: rs => anonymous_provider_renders rs
  end.

(** A page on which the gate has rendered: its effect has seen the object
    in the context, and that object is older than the next one. *)
Definition rendered (p : page) : Prop :=
  seen p = Some (auth_ref (context p)) ∧ auth_ref (context p) < next_ref p.

(** ** The tagged unions of the specification and their encodings *)

Inductive SessionUser :=
| Loading
| Anonymous
| Authenticated (fields : gmap string value).

(** [MergedUser] and [FormattedUser] use the same three tags. *)
Definition js_user (u : SessionUser) : value :=
  match u with
  | Loading => VNull
  | Anonymous => VBool false
  | Authenticated fields => VObj fields
  end.

Inductive ProfileQueryResult :=
| QPending (fetching : bool)
| QFailed (reason : string)
| QSucceeded (record : option (gmap string value)).

Definition js_query (q : ProfileQueryResult) : query :=
  match q with
  | QPending false => Query VUndefined "idle" VNull
  | QPending true => Query VUndefined "loading" VNull
  | QFailed reason => Query VUndefined "error" (VObj {[ "message" := VStr reason ]})
  | QSucceeded None => Query VNull "success" VNull
  | QSucceeded (Some record) => Query (VObj record) "success" VNull
  end.

(** The typed failures of the specification are the [Error]s the source
    builds with these messages. *)
Definition ProfileFetchError (reason : string) : exn :=
  Error (fetch_error_message reason).

(** The recomputation rule of the data merge stage, as the specification
    words it. *)
Definition merge_rule (u : SessionUser) (q : ProfileQueryResult) : result SessionUser :=
  match u, q with
  | Loading, _ => Ok Loading
  | Anonymous, _ => Ok Anonymous
  | Authenticated _, QPending _ => Ok Loading
  | Authenticated _, QSucceeded None => Ok Loading
  | Authenticated session, QSucceeded (Some profile) =>
      Ok (Authenticated (profile ∪ session))
  | Authenticated _, QFailed reason => Err (ProfileFetchError reason)
  end.

(** The data merge stage run on an encoded session and an encoded query
    result. *)
Definition merged_of (u : SessionUser) (q : ProfileQueryResult) : result value :=
  useMergeExtraData (fun _ => js_query q) (js_user u) MERGE_DB_USER.

Definition UnconfirmedEmail : exn := Error unconfirmed_email_message.
Definition ConfirmationPending : exn := Error confirmation_pending_message.

(** The billing record of a merged user: the first row of its [customers]
    relation. *)
Definition billing_record (fields : gmap string value) : option (gmap string value) :=
  match fields !! "customers" with
  | Some (VArr (VObj record :: _)) => Some record
  | _ => None
  end.

(** The subscription status of the billing record, [undefined] when the
    record or the status is missing. *)
Definition subscription_status (fields : gmap string value) : value :=
  match billing_record fields with
  | Some record => default VUndefined (record !! "stripe_subscription_status")
  | None => VUndefined
  end.

(** A merged user carries the provider's [app_metadata] object, and its
    [customers] relation, when the profile has one, is [null] or a list. *)
Definition merged_user_shaped (fields : gmap string value) : bool :=
  match fields !! "app_metadata" with
  | Some (VObj _) =>
      match fields !! "customers" with
      | None | Some VNull | Some (VArr _) => true
      | _ => false
      end
  | _ => false
  end.

(** The provider name of the session. *)
Definition session_provider (fields : gmap string value) : value :=
  match fields !! "app_metadata" with
  | Some (VObj app_metadata) => default VUndefined (app_metadata !! "provider")
  | _ => VUndefined
  end.

(** The user-facing name of a provider. *)
Definition provider_label (provider : value) : value :=
  match provider with
  | VStr name => if String.eqb name "email" then VStr "password" else provider
  | _ => provider
  end.

(** What [camelcase-keys] does to the columns of a billing record, used to
    run the formatter on examples: a letter after an underscore is put in
    upper case and the underscore dropped. *)
Definition upper (c : Ascii.ascii) : Ascii.ascii :=
  let n := Ascii.nat_of_ascii c in
  if (97 <=? n)%nat && (n <=? 122)%nat then Ascii.ascii_of_nat (n - 32) else c.

Fixpoint camelCase (s : string) : string :=
  match s with
  | String c rest =>
      if Ascii.eqb c (Ascii.ascii_of_nat 95) then
        match rest with
        | String d rest' => String (upper d) (camelCase rest')
        | EmptyString => EmptyString
        end
      else String c (camelCase rest)
  | EmptyString => EmptyString
  end.

Definition camelcase_columns (v : value) : value :=
  match v with
  | VObj m => VObj (kmap camelCase m)
  | _ => v
  end.

(** A plan table and a merged user for the examples: signed in by email,
    with one billing record on trial. *)
Definition example_plans (price : value) : value :=
  if strict_eq price (VStr "price_pro") then VStr "pro" else VUndefined.

Definition example_user : gmap string value :=
  <["customers" :=
      VArr [VObj (<["stripe_subscription_status" := VStr "trialing"]>
                    (<["stripe_price_id" := VStr "price_pro"]>
                       {[ "id" := VStr "7d1c" ]}))]]>
    (<["app_metadata" := VObj {[ "provider" := VStr "email" ]}]>
       (<["email" := VStr "ada@example.com"]> {[ "id" := VStr "7d1c" ]})).

Definition formatted_example : result value :=
  useFormatUser camelcase_columns example_plans (VObj example_user).

(** A provider response carries no error. *)
Definition accepted (response : value) : Prop :=
  ∃ error, get response "error" = Ok error ∧ truthy error = false.

(** The email-confirmation timestamp of an identity is missing. *)
Definition absent (timestamp : value) : Prop :=
  timestamp = VUndefined ∨ timestamp = VNull.

(** The two operations that answer with [handleAuth], and the provider
    call each one makes. *)
Inductive password_flow :=
| SignUp
| SignIn.

Definition flow_operation (f : password_flow) : value → value → proc value :=
  match f with
  | SignUp => signup
  | SignIn => signin
  end.

Definition flow_call (f : password_flow) (email password : value) : ext_call :=
  match f with
  | SignUp => AuthSignUp (credentials email password)
  | SignIn => AuthSignIn (credentials email password) VUndefined
  end.

(** The provider calls of the redirect sign-in and of the email update. *)
Definition redirect_call (origin : string) (name : value) : ext_call :=
  AuthSignIn (VObj {[ "provider" := name ]})
    (VObj {[ "redirectTo" := VStr (origin ++ "/dashboard") ]}).

Definition email_update_call (email : string) : ext_call :=
  AuthUpdate (VObj {[ "email" := VStr email ]}).

(** ** Profile store accessor *)

(** Modelled from the spec: [useUser] of [./db], the profile store
    accessor. It holds one query, keyed by an identity id and disabled
    while the key is falsy; [queryByKey] switches the key, which drops the
    result held for the key before; a result from the store is applied
    only when the id it was issued for is the current key. *)
Record accessor := Accessor { active_key : value; held : query }.

Definition queryByKey (key : value) (a : accessor) : accessor :=
  if strict_eq key (active_key a) then a
  else Accessor key
         (if truthy key then Query VUndefined "loading" VNull
          else Query VUndefined "idle" VNull).

Definition store_result (issued_for : value) (r : query) (a : accessor) : accessor :=
  if truthy (active_key a) && strict_eq issued_for (active_key a)
  then Accessor (active_key a) r
  else a.

Definition store_results (rs : list (value * query)) (a : accessor) : accessor :=
  foldl (fun a r => store_result (fst r) (snd r) a) a rs.

(** [useUser key] in a render that follows the arrival of [rs]. *)
Definition useUser_after (rs : list (value * query)) (a : accessor) (key : value) : query :=
  held (store_results rs (queryByKey key a)).

(** ** Further vocabulary for the operations *)

(** The settlement of a promise that adopts a synchronous result. *)
Definition settle {A : Type} (r : result A) : outcome A :=
  match r with
  | Ok a => Fulfilled a
  | Err e => Rejected e
  end.

(** An operation that never calls [setUser]. *)
Inductive quiet {A : Type} : proc A → Prop :=
| quiet_ret (a : A) : quiet (Ret a)
| quiet_throw (e : exn) : quiet (Throw e)
| quiet_await (c : ext_call) (k : value → proc A) :
    (∀ v, quiet (k v)) → quiet (Await c k)
| quiet_forever : quiet Forever.

(** The user that a session-change event leaves in the state. *)
Definition session_user (session : value) : value :=
  if truthy session then
    match get session "user" with
    | Ok user => user
    | Err _ => VUndefined
    end
  else VBool false.

(** The state after the callback of [onAuthStateChange] has handled the
    events [sessions], oldest first. The callback awaits nothing, so no
    turn of the event loop is needed. *)
Definition after_events (sessions : list value) (w : world) : world :=
  foldl (fun w session => snd (run (fun _ => Ok VUndefined) 0 (onAuthStateChange session) w))
    w sessions.

(** The marker that [initialize] looks for in [window.location.hash]. *)
Definition access_token_marker : string := "#access_token=".

(** ** The tables and triggers of [schema.sql]

    A [text] column is a string or NULL, a condition is true, false or
    NULL, and a [check] constraint rejects a row only when its condition
    is false. *)
Module Schema.

Definition char_length (t : option string) : option nat := String.length <$> t.

Definition sql_ge (a : option nat) (n : nat) : option bool :=
  (fun x => (n <=? x)%nat) <$> a.

Definition sql_le (a : option nat) (n : nat) : option bool :=
  (fun x => (x <=? n)%nat) <$> a.

Definition sql_or (a b : option bool) : option bool :=
  match a, b with
  | Some true, _ | _, Some true => Some true
  | Some false, Some false => Some false
  | _, _ => None
  end.

Definition check_passes (condition : option bool) : bool :=
  match condition with
  | Some false => false
  | _ => true
  end.

(** [constraint email check (char_length(name) >= 3 OR char_length(name) <= 500)] *)
Definition users_email_check (name : option string) : option bool :=
  sql_or (sql_ge (char_length name) 3) (sql_le (char_length name) 500).

(** [constraint name check (char_length(name) >= 1 OR char_length(name) <= 144)],
    on [public.users] and on [public.items]. *)
Definition users_name_check (name : option string) : option bool :=
  sql_or (sql_ge (char_length name) 1) (sql_le (char_length name) 144).

Definition items_name_check (name : option string) : option bool :=
  sql_or (sql_ge (char_length name) 1) (sql_le (char_length name) 144).

(** A row of [public.users] under its primary key [id]. *)
Record profile := Profile { profile_email : option string; profile_name : option string }.

(** The columns of a row of [auth.users] that the triggers read;
    [full_name] is [raw_user_meta_data->>'full_name']. *)
Record auth_user := AuthUser {
  auth_id : string;
  auth_email : option string;
  full_name : option string
}.

Inductive sql_error :=
| UniqueViolation
| CheckViolation (constraint : string).

Definition users_checks (row : profile) : option sql_error :=
  if negb (check_passes (users_email_check (profile_name row))) then
    Some (CheckViolation "email")
  else if negb (check_passes (users_name_check (profile_name row))) then
    Some (CheckViolation "name")
  else None.

(** [handle_new_user]: [insert into public.users (id, email, name)
    values (new.id, new.email, new.raw_user_meta_data->>'full_name')].
    The trigger runs after the insert on [auth.users], so the foreign key
    of [id] is satisfied. *)
Definition handle_new_user (new : auth_user) (users : gmap string profile)
  : sql_error + gmap string profile :=
  let row := Profile (auth_email new) (full_name new) in
  match users_checks row with
  | Some e => inl e
  | None =>
      match users !! auth_id new with
      | Some _ => inl UniqueViolation
      | None => inr (<[auth_id new := row]> users)
      end
  end.

(** [handle_update_user]: [update public.users set email = new.email
    where id = new.id]. *)
Definition handle_update_user (new : auth_user) (users : gmap string profile)
  : sql_error + gmap string profile :=
  match users !! auth_id new with
  | Some old =>
      let row := Profile (auth_email new) (profile_name old) in
      match users_checks row with
      | Some e => inl e
      | None => inr (<[auth_id new := row]> users)
      end
  | None => inr users
  end.

End Schema.

(** * Properties *)

Local Open Scope list_scope.
Local Open Scope nat_scope.

(** ** Finite maps and strings *)

Lemma lookup_union_precedence (profile session : gmap string value) (k : string) :
  (profile ∪ session) !! k =
    match profile !! k with
    | Some v => Some v
    | None => session !! k
    end.
Proof.
  rewrite lookup_union.
  destruct (profile !! k), (session !! k); reflexivity.
Qed.

Lemma spread_object (m base : gmap string value) : spread (VObj m) base = m ∪ base.
Proof. reflexivity. Qed.

Lemma spread_object_first (m : gmap string value) : spread (VObj m) ∅ = m.
Proof. unfold spread; simpl. apply (right_id_L ∅ (∪)). Qed.

Lemma list_ascii_app (s t : string) :
  String.list_ascii_of_string (s +:+ t) =
    String.list_ascii_of_string s ++ String.list_ascii_of_string t.
Proof. induction s as [|c s IH]; simpl; [reflexivity | by rewrite IH]. Qed.

Lemma string_app_inv_tail (s1 s2 t : string) : s1 +:+ t = s2 +:+ t → s1 = s2.
Proof.
  intros E.
  apply (f_equal String.list_ascii_of_string) in E.
  rewrite !list_ascii_app in E.
  apply (inj (λ l, l ++ String.list_ascii_of_string t)) in E.
  rewrite <- (String.string_of_list_ascii_of_string s1).
  rewrite <- (String.string_of_list_ascii_of_string s2).
  by rewrite E.
Qed.

Lemma fetch_error_message_inj (r1 r2 : string) :
  fetch_error_message r1 = fetch_error_message r2 → r1 = r2.
Proof.
  unfold fetch_error_message. intros E.
  apply (inj (String.app _)) in E.
  apply (inj (String.app _)) in E.
  by apply string_app_inv_tail in E.
Qed.

(** ** Data merge stage *)

Arguments fetch_error_message : simpl never.

(** On encoded inputs the hook computes the recomputation rule of the
    specification. *)
Lemma merged_of_rule (u : SessionUser) (q : ProfileQueryResult) :
  merged_of u q = js_user <$> merge_rule u q.
Proof.
  unfold merged_of.
  destruct u as [| |session]; [reflexivity | reflexivity |].
  destruct q as [[|]|reason|[profile|]]; try reflexivity.
  unfold useMergeExtraData, mergeExtraData, query_key; simpl.
  by rewrite !spread_object, (right_id_L ∅ (∪)).
Qed.

(** C1. The recomputation of the data merge stage, case by case: a loading
    session stays loading, an anonymous one stays anonymous, an
    authenticated session whose profile query is pending or succeeded
    without a record gives loading (neither anonymous nor an authenticated
    value, however empty), and an authenticated session whose query
    succeeded with a record gives the authenticated union of both, where
    the profile's value wins on every key the two share. *)
Theorem merge_recomputation :
  (∀ q, merged_of Loading q = Ok (js_user Loading)) ∧
  (∀ q, merged_of Anonymous q = Ok (js_user Anonymous)) ∧
  (∀ session fetching,
     let merged := merged_of (Authenticated session) (QPending fetching) in
     merged = Ok (js_user Loading) ∧
     merged ≠ Ok (js_user Anonymous) ∧
     ∀ fields, merged ≠ Ok (js_user (Authenticated fields))) ∧
  (∀ session,
     let merged := merged_of (Authenticated session) (QSucceeded None) in
     merged = Ok (js_user Loading) ∧
     merged ≠ Ok (js_user Anonymous) ∧
     ∀ fields, merged ≠ Ok (js_user (Authenticated fields))) ∧
  (∀ session profile,
     ∃ fields,
       merged_of (Authenticated session) (QSucceeded (Some profile))
       = Ok (js_user (Authenticated fields)) ∧
       ∀ k, fields !! k =
              match profile !! k with
              | Some v => Some v
              | None => session !! k
              end).
Proof.
  split; [| split; [| split; [| split]]].
  - intros q. by rewrite merged_of_rule.
  - intros q. by rewrite merged_of_rule.
  - intros session fetching merged. subst merged.
    by rewrite merged_of_rule.
  - intros session merged. subst merged.
    by rewrite merged_of_rule.
  - intros session profile. exists (profile ∪ session). split.
    + by rewrite merged_of_rule.
    + apply lookup_union_precedence.
Qed.

(** C3. The data merge stage fails with [ProfileFetchError reason] exactly
    when the session is authenticated and the profile query failed with
    that reason, and the failure is what [finalUser] ends with: the
    formatter turns it into no user value. *)
Theorem merge_failure_surfaced :
  (∀ u q reason,
     merged_of u q = Err (ProfileFetchError reason)
     ↔ (∃ session, u = Authenticated session) ∧ q = QFailed reason) ∧
  (∀ camelcaseKeys getFriendlyPlanId session reason,
     finalUser camelcaseKeys getFriendlyPlanId (λ _, js_query (QFailed reason))
       (js_user (Authenticated session))
     = Err (ProfileFetchError reason)).
Proof.
  split.
  - intros u q reason. rewrite merged_of_rule. split.
    + destruct u as [| |session]; [done | done |].
      destruct q as [fetching|reason'|[profile|]]; try done.
      simpl. unfold ProfileFetchError. intros E.
      assert (fetch_error_message reason' = fetch_error_message reason) as E'
        by congruence.
      apply fetch_error_message_inj in E'. subst. eauto.
    + by intros [[session ->] ->].
  - intros camelcaseKeys getFriendlyPlanId session reason.
    unfold finalUser. fold (merged_of (Authenticated session) (QFailed reason)).
    by rewrite merged_of_rule.
Qed.

(** ** Session state machine *)

Lemma handleError_accepted (response : value) :
  accepted response → handleError response = Ok response.
Proof.
  intros (e & He & Hfalsy). unfold handleError. rewrite He. simpl.
  by rewrite Hfalsy.
Qed.

Lemma absent_falsy (timestamp : value) : absent timestamp → truthy timestamp = false.
Proof. by intros [-> | ->]. Qed.

Lemma nonempty_truthy (t : string) : t ≠ "" → truthy (VStr t) = true.
Proof. intros Ht. simpl. by destruct (String.eqb_spec t ""). Qed.

Lemma handleAuth_run (remote : ext_call → result value) (n : nat)
  (response identity timestamp : value) (w : world) :
  get response "user" = Ok identity →
  get identity "email_confirmed_at" = Ok timestamp →
  run remote n (handleAuth response) w
  = if truthy timestamp then (Fulfilled identity, World identity (issued w))
    else (Rejected UnconfirmedEmail, w).
Proof.
  intros Hid Hts. unfold handleAuth. rewrite Hid. simpl. rewrite Hts. simpl.
  by destruct (truthy timestamp).
Qed.

Lemma handleAuth_no_identity (remote : ext_call → result value) (n : nat)
  (response : value) (w : world) :
  get response "user" = Ok VNull ∨ get response "user" = Ok VUndefined →
  run remote n (handleAuth response) w = (Rejected TypeError, w).
Proof. unfold handleAuth. by intros [-> | ->]. Qed.

(** What [.then(handleError).then(handleAuth)] does with a response. *)
Lemma flow_run (f : password_flow) (remote : ext_call → result value)
  (email password response : value) (w : world) (n : nat) :
  remote (flow_call f email password) = Ok response →
  accepted response →
  run remote (S n) (flow_operation f email password) w
  = run remote n (handleAuth response)
      (World (user w) (issued w ++ [flow_call f email password])).
Proof.
  intros Hr Hacc. destruct f; simpl in *; rewrite Hr;
    by rewrite (handleError_accepted _ Hacc).
Qed.

(** C2. When the provider accepts a sign-up or a sign-in, an identity
    whose email-confirmation timestamp is absent makes the operation
    reject with [UnconfirmedEmail] and leaves the session user as it was;
    an identity with a timestamp makes the operation store the identity as
    the session user and resolve with it. *)
Theorem confirmation_decides_sign_in (f : password_flow)
  (remote : ext_call → result value) (email password response identity timestamp : value)
  (w : world) (n : nat) :
  remote (flow_call f email password) = Ok response →
  accepted response →
  get response "user" = Ok identity →
  get identity "email_confirmed_at" = Ok timestamp →
  let after := (issued w ++ [flow_call f email password])%list in
  (absent timestamp →
   run remote (S n) (flow_operation f email password) w
   = (Rejected UnconfirmedEmail, World (user w) after)) ∧
  (∀ t, timestamp = VStr t → t ≠ "" →
   run remote (S n) (flow_operation f email password) w
   = (Fulfilled identity, World identity after)).
Proof.
  intros Hr Hacc Hid Hts after. subst after.
  rewrite (flow_run _ _ _ _ _ _ _ Hr Hacc), (handleAuth_run _ _ _ _ _ _ Hid Hts).
  split.
  - intros Habs. by rewrite (absent_falsy _ Habs).
  - intros t -> Ht. by rewrite (nonempty_truthy _ Ht).
Qed.

(** C10. When the provider accepts a sign-up or a sign-in but returns no
    identity ([user] is [null] or [undefined]), [handleAuth] reads
    [email_confirmed_at] of it: the operation rejects with the runtime's
    TypeError, which is neither [UnconfirmedEmail] nor an error thrown on
    behalf of the provider, and the session user is left as it was. *)
Theorem missing_identity_type_error (f : password_flow)
  (remote : ext_call → result value) (email password response : value)
  (w : world) (n : nat) :
  remote (flow_call f email password) = Ok response →
  accepted response →
  get response "user" = Ok VNull ∨ get response "user" = Ok VUndefined →
  run remote (S n) (flow_operation f email password) w
  = (Rejected TypeError, World (user w) (issued w ++ [flow_call f email password])) ∧
  TypeError ≠ UnconfirmedEmail ∧
  (∀ error, TypeError ≠ Thrown error).
Proof.
  intros Hr Hacc Hid.
  split; [| done].
  by rewrite (flow_run _ _ _ _ _ _ _ Hr Hacc), (handleAuth_no_identity _ _ _ _ Hid).
Qed.

(** C7. When the provider reports no error, the promise returned by
    [signinWithProvider] is pending after any number of turns of the event
    loop: it is never fulfilled and never rejected. *)
Theorem redirect_sign_in_pending (origin : string) (name : value)
  (remote : ext_call → result value) (response : value) (w : world) (turns : nat) :
  remote (redirect_call origin name) = Ok response →
  accepted response →
  fst (run remote turns (signinWithProvider origin name) w) = Pending.
Proof.
  intros Hr Hacc. destruct turns as [|n]; [reflexivity |].
  unfold signinWithProvider, redirect_call in *. simpl. rewrite Hr.
  by rewrite (handleError_accepted _ Hacc).
Qed.

Lemma confirmation_decides_sign_in_witness :
  let unconfirmed := VObj {[ "email_confirmed_at" := VNull ]} in
  let confirmed := VObj {[ "email_confirmed_at" := VStr "2021-06-01T10:00:00Z" ]} in
  let reply identity := VObj (<["user" := identity]> {[ "error" := VNull ]}) in
  let email := VStr "ada@example.com" in
  let password := VStr "secret" in
  run (λ _, Ok (reply unconfirmed)) 1 (signup email password) (World VNull [])
  = (Rejected UnconfirmedEmail, World VNull [AuthSignUp (credentials email password)]) ∧
  run (λ _, Ok (reply confirmed)) 1 (signin email password) (World (VBool false) [])
  = (Fulfilled confirmed,
     World confirmed [AuthSignIn (credentials email password) VUndefined]).
Proof.
  intros unconfirmed confirmed reply email password. split.
  - apply (confirmation_decides_sign_in SignUp (λ _, Ok (reply unconfirmed))
             email password (reply unconfirmed) unconfirmed VNull (World VNull []) 0).
    + reflexivity.
    + exists VNull. split; reflexivity.
    + reflexivity.
    + reflexivity.
    + right. reflexivity.
  - apply (confirmation_decides_sign_in SignIn (λ _, Ok (reply confirmed))
             email password (reply confirmed) confirmed
             (VStr "2021-06-01T10:00:00Z") (World (VBool false) []) 0)
      with (t := "2021-06-01T10:00:00Z").
    + reflexivity.
    + exists VNull. split; reflexivity.
    + reflexivity.
    + reflexivity.
    + reflexivity.
    + discriminate.
Defined.

Lemma missing_identity_type_error_witness :
  let reply := VObj (<["user" := VNull]> {[ "error" := VNull ]}) in
  let email := VStr "ada@example.com" in
  let password := VStr "secret" in
  run (λ _, Ok reply) 1 (signin email password) (World (VBool false) [])
  = (Rejected TypeError,
     World (VBool false) [AuthSignIn (credentials email password) VUndefined]).
Proof.
  intros reply email password.
  apply (missing_identity_type_error SignIn (λ _, Ok reply) email password reply
           (World (VBool false) []) 0).
  - reflexivity.
  - exists VNull. split; reflexivity.
  - left. reflexivity.
Defined.

Lemma redirect_sign_in_pending_witness :
  let reply := VObj (<["user" := VNull]> {[ "error" := VNull ]}) in
  fst (run (λ _, Ok reply) 1000
         (signinWithProvider "https://app.example.com" (VStr "google"))
         (World (VBool false) []))
  = Pending.
Proof.
  intros reply.
  apply (redirect_sign_in_pending "https://app.example.com" (VStr "google")
           (λ _, Ok reply) reply (World (VBool false) []) 1000).
  - reflexivity.
  - exists VNull. split; reflexivity.
Defined.

Lemma updateProfile_changed (user data : value) (fields request : gmap string value)
  (current new : string) :
  user = VObj fields → data = VObj request →
  fields !! "email" = Some (VStr current) →
  request !! "email" = Some (VStr new) →
  new ≠ "" → new ≠ current →
  updateProfile user data
  = Await (email_update_call new)
      (λ response, _ ← lift (handleError response); Throw ConfirmationPending).
Proof.
  intros -> -> Hcur Hnew Hne Hdiff. unfold updateProfile. simpl.
  rewrite Hnew, Hcur. simpl.
  destruct (String.eqb_spec new ""); [done |].
  destruct (String.eqb_spec new current); [done |]. reflexivity.
Qed.

Lemma updateProfile_unchanged (fields request : gmap string value) (current : string) :
  fields !! "email" = Some (VStr current) →
  request !! "email" = Some (VStr current) →
  updateProfile (VObj fields) (VObj request)
  = updateProfile (VObj fields) (VObj (delete "email" request)).
Proof.
  intros Hcur Hreq. unfold updateProfile. simpl.
  rewrite Hreq, Hcur, lookup_delete_eq. simpl.
  rewrite String.eqb_refl. simpl.
  assert (delete "email" (delete "email" request) = delete "email" request) as ->.
  { apply delete_id. apply lookup_delete_eq. }
  by destruct (negb (current =? "")%string).
Qed.

(** C8, as the code has it. For a request whose email is a new, non-empty
    address, [updateProfile] issues the provider update; when the provider
    reports no error it then rejects with [ConfirmationPending], and when
    the provider reports an error it rejects with that error. Either way
    the session user is the same after the operation as before it; it
    takes the email of a later session-change event when the callback of
    [onAuthStateChange] stores that event's user. A request whose email is
    the current one behaves as the same request without an email. *)
Theorem email_update_confirmation_pending (remote : ext_call → result value)
  (fields request : gmap string value) (current : string) (w : world) (n : nat) :
  fields !! "email" = Some (VStr current) →
  (∀ new response,
     request !! "email" = Some (VStr new) → new ≠ "" → new ≠ current →
     remote (email_update_call new) = Ok response → accepted response →
     run remote (S n) (updateProfile (VObj fields) (VObj request)) w
     = (Rejected ConfirmationPending,
        World (user w) (issued w ++ [email_update_call new]))) ∧
  (∀ new response failure,
     request !! "email" = Some (VStr new) → new ≠ "" → new ≠ current →
     remote (email_update_call new) = Ok response →
     get response "error" = Ok failure → truthy failure = true →
     run remote (S n) (updateProfile (VObj fields) (VObj request)) w
     = (Rejected (Thrown failure),
        World (user w) (issued w ++ [email_update_call new]))) ∧
  (∀ session identity,
     truthy session = true → get session "user" = Ok identity →
     run remote n (onAuthStateChange session) w
     = (Fulfilled VUndefined, World identity (issued w))) ∧
  (request !! "email" = Some (VStr current) →
   updateProfile (VObj fields) (VObj request)
   = updateProfile (VObj fields) (VObj (delete "email" request))).
Proof.
  intros Hcur. split; [| split; [| split]].
  - intros new response Hnew Hne Hdiff Hr Hacc.
    rewrite (updateProfile_changed _ _ fields request current new
               eq_refl eq_refl Hcur Hnew Hne Hdiff).
    simpl. rewrite Hr. by rewrite (handleError_accepted _ Hacc).
  - intros new response failure Hnew Hne Hdiff Hr Herr Htruthy.
    rewrite (updateProfile_changed _ _ fields request current new
               eq_refl eq_refl Hcur Hnew Hne Hdiff).
    simpl. rewrite Hr. unfold handleError. rewrite Herr. simpl.
    by rewrite Htruthy.
  - intros session identity Hs Hid. unfold onAuthStateChange.
    rewrite Hs, Hid. reflexivity.
  - intros Hreq. by apply updateProfile_unchanged with (current := current).
Qed.

Lemma email_update_confirmation_pending_witness :
  let fields : gmap string value := {[ "email" := VStr "old@example.com" ]} in
  let request : gmap string value := {[ "email" := VStr "new@example.com" ]} in
  let reply := VObj (<["user" := VObj fields]> {[ "error" := VNull ]}) in
  run (λ _, Ok reply) 1 (updateProfile (VObj fields) (VObj request))
    (World (VObj fields) [])
  = (Rejected ConfirmationPending,
     World (VObj fields) [email_update_call "new@example.com"]).
Proof.
  intros fields request reply.
  apply (proj1 (email_update_confirmation_pending (λ _, Ok reply) fields request
                  "old@example.com" (World (VObj fields) []) 0 eq_refl)
           "new@example.com" reply).
  - reflexivity.
  - discriminate.
  - discriminate.
  - reflexivity.
  - exists VNull. split; reflexivity.
Defined.

(** Against C8 as the specification words it: the provider refuses the new
    address and the operation rejects with the provider's error, not with
    [ConfirmationPending]. *)
Lemma email_update_provider_error :
  let fields : gmap string value := {[ "email" := VStr "old@example.com" ]} in
  let request : gmap string value := {[ "email" := VStr "new@example.com" ]} in
  let failure := VObj {[ "message" := VStr "Email rate limit exceeded" ]} in
  let reply := VObj (<["user" := VNull]> {[ "error" := failure ]}) in
  run (λ _, Ok reply) 1 (updateProfile (VObj fields) (VObj request))
    (World (VObj fields) [])
  = (Rejected (Thrown failure),
     World (VObj fields) [email_update_call "new@example.com"]) ∧
  Thrown failure ≠ ConfirmationPending.
Proof. split; [reflexivity | discriminate]. Qed.

(** ** Gate *)

Lemma gate_pass_rendered (props : value) (p : page) :
  auth_ref (context p) < next_ref p → rendered (snd (gate_pass props p)).
Proof. intros Hlt. by split. Qed.

Lemma render_step_rendered (r : render) (p : page) :
  rendered p → rendered (snd (render_step r p)).
Proof.
  intros [Hseen Hlt]. destruct r as [final props | props]; unfold render_step.
  - apply gate_pass_rendered. simpl. lia.
  - by apply gate_pass_rendered.
Qed.

Lemma render_step_replaced (r : render) (p : page) :
  rendered p →
  replaced (snd (render_step r p))
  = (replaced p ++ replicate (anonymous_provider_renders [r]) "/auth/signin")%list.
Proof.
  intros [Hseen Hlt]. destruct r as [final props | props]; simpl.
  - rewrite Hseen. unfold effect_due, requireAuth_effect. simpl.
    destruct (Nat.eqb_spec (auth_ref (context p)) (next_ref p)); [lia |].
    simpl. by destruct (strict_eq final (VBool false)).
  - rewrite Hseen. unfold effect_due. rewrite Nat.eqb_refl. simpl.
    by rewrite app_nil_r.
Qed.

Lemma renders_replaced (rs : list render) (p : page) :
  rendered p →
  replaced (renders rs p)
  = (replaced p ++ replicate (anonymous_provider_renders rs) "/auth/signin")%list.
Proof.
  revert p. induction rs as [|r rs IH]; intros p Hp.
  - simpl. by rewrite app_nil_r.
  - change (renders (r :: rs) p) with (renders rs (snd (render_step r p))).
    rewrite IH by by apply render_step_rendered.
    rewrite render_step_replaced by done.
    rewrite <- app_assoc, <- replicate_add.
    do 2 f_equal. destruct r; simpl; lia.
Qed.

Lemma entries_bounded (rs : list render) (current : value) :
  entries_into_anonymous current (users_seen rs current)
  ≤ anonymous_provider_renders rs.
Proof.
  revert current. induction rs as [|[final props | props] rs IH]; intros current; simpl.
  - lia.
  - specialize (IH final).
    destruct (strict_eq final (VBool false)); simpl; [| lia].
    destruct (negb (strict_eq current (VBool false))); lia.
  - specialize (IH current).
    destruct (strict_eq current (VBool false)); simpl; lia.
Qed.

(** C9, as the code has it. The gate renders the placeholder while the
    formatted user is loading or anonymous and the protected component
    exactly when it is authenticated. Its effect is keyed on the context
    object: since the mount it has redirected to the sign-in page once for
    every render of the provider whose user is anonymous, the mount
    included, and never for a render of the gated component alone; so
    every change into anonymous is followed by a redirect. *)
Theorem gate_redirects_per_context_object :
  (∀ u ref props,
     requireAuth_render (Auth ref (js_user u)) props
     = match u with
       | Authenticated _ => Component props
       | Loading | Anonymous => PageLoader
       end) ∧
  (∀ final props rs,
     replaced (renders rs (snd (mount final props)))
     = replicate (anonymous_provider_renders (ProviderRender final props :: rs))
         "/auth/signin") ∧
  (∀ final props rs,
     entries_into_anonymous VNull (final :: users_seen rs final)
     ≤ length (replaced (renders rs (snd (mount final props))))).
Proof.
  assert (∀ final props rs,
            replaced (renders rs (snd (mount final props)))
            = replicate (anonymous_provider_renders (ProviderRender final props :: rs))
                "/auth/signin") as Hcount.
  { intros final props rs.
    rewrite renders_replaced by (split; simpl; [done | lia]).
    simpl. unfold requireAuth_effect. simpl.
    by destruct (strict_eq final (VBool false)). }
  split; [| split].
  - by intros [| |fields] ref props.
  - exact Hcount.
  - intros final props rs. rewrite Hcount, length_replicate.
    pose proof (entries_bounded rs final) as Hle. simpl.
    destruct (strict_eq final (VBool false)); simpl; lia.
Qed.

(** Against C9 as the specification words it: the provider renders again
    while the user is still anonymous and the gate redirects a second
    time, after one change into anonymous. *)
Lemma gate_redirects_again :
  let again := [ProviderRender (VBool false) VUndefined] in
  replaced (renders again (snd (mount (VBool false) VUndefined)))
  = ["/auth/signin"; "/auth/signin"] ∧
  entries_into_anonymous VNull (VBool false :: users_seen again (VBool false)) = 1.
Proof. split; reflexivity. Qed.

(** ** Presentation formatter *)

Section FormatterProperties.
Variable camelcaseKeys : value → value.
Variable getFriendlyPlanId : value → value.

Lemma customer_of_shaped (fields : gmap string value) :
  merged_user_shaped fields = true →
  ∃ customer,
    customer_of (VObj fields) = Ok customer ∧ truthy customer = true ∧
    get customer "stripe_subscription_status" = Ok (subscription_status fields).
Proof.
  unfold merged_user_shaped, customer_of, subscription_status, billing_record. simpl.
  destruct (fields !! "app_metadata") as [[]|]; try done.
  destruct (fields !! "customers") as [[| | | | |l|]|]; try done; simpl.
  - intros _. by exists (VObj ∅).
  - intros _. destruct l as [|first l]; simpl; [by exists (VObj ∅) |].
    destruct (truthy first) eqn:Hfirst.
    + exists first. repeat split; [done |].
      by destruct first.
    + exists (VObj ∅). by destruct first.
  - intros _. by exists (VObj ∅).
Qed.

(** The formatter succeeds on a merged user and its result is built from
    the user's properties in the order of the object literal. *)
Lemma useFormatUser_shaped (fields : gmap string value) :
  merged_user_shaped fields = true →
  ∃ customer price,
    customer_of (VObj fields) = Ok customer ∧
    useFormatUser camelcaseKeys getFriendlyPlanId (VObj fields)
    = Ok (VObj
            (<["planIsActive" :=
                 VBool (includes [VStr "active"; VStr "trialing"]
                          (subscription_status fields))]>
               (spread (if truthy price
                        then VObj {[ "planId" := getFriendlyPlanId price ]}
                        else price)
                  (spread (camelcaseKeys customer)
                     (<["providers" := VArr [provider_label (session_provider fields)]]>
                        (<["uid" := default VUndefined (fields !! "id")]>
                           (spread (VObj fields) ∅))))))).
Proof.
  intros Hshape.
  destruct (customer_of_shaped fields Hshape) as (customer & Hc & Htruthy & Hs).
  assert (∃ price, get customer "stripe_price_id" = Ok price) as [price Hp].
  { destruct customer; try done; by eexists. }
  exists customer, price. split; [done |].
  unfold useFormatUser, session_provider. simpl.
  unfold merged_user_shaped in Hshape.
  destruct (fields !! "app_metadata") as [[| | | | | |app_metadata]|]; try done.
  simpl. rewrite Hc. simpl. rewrite Hp. simpl. rewrite Hs. simpl.
  do 6 f_equal.
  destruct (app_metadata !! "provider") as [provider|]; simpl; [| done].
  by destruct provider.
Qed.

Lemma strict_eq_string (s : string) (x : value) :
  strict_eq (VStr s) x = true ↔ x = VStr s.
Proof.
  destruct x as [| | | |s'| |]; unfold strict_eq; try (split; done).
  rewrite String.eqb_eq. split; congruence.
Qed.

Lemma includes_allow_list (subscription : value) :
  includes [VStr "active"; VStr "trialing"] subscription = true
  ↔ subscription = VStr "active" ∨ subscription = VStr "trialing".
Proof.
  unfold includes, existsb.
  rewrite !orb_true_iff, !strict_eq_string. split.
  - intros [? | [? | ?]]; [by left | by right | done].
  - intros [? | ?]; auto.
Qed.

Lemma subscription_status_allowed (fields : gmap string value) (s : string) :
  subscription_status fields = VStr s
  ↔ ∃ record,
      billing_record fields = Some record ∧
      record !! "stripe_subscription_status" = Some (VStr s).
Proof.
  unfold subscription_status. split.
  - destruct (billing_record fields) as [record|]; [| done].
    destruct (record !! "stripe_subscription_status") as [v|] eqn:Hv; [| done].
    simpl. intros ->. eauto.
  - intros (record & -> & ->). done.
Qed.

(** C5. For every authenticated merged user the formatted user has a
    [planIsActive] field, and it is [true] exactly when the user has a
    billing record whose subscription status is ["active"] or
    ["trialing"]; with any other status, with no status and with no
    billing record it is [false]. *)
Theorem plan_is_active_allow_list (fields : gmap string value) :
  merged_user_shaped fields = true →
  ∃ out active,
    useFormatUser camelcaseKeys getFriendlyPlanId (VObj fields) = Ok (VObj out) ∧
    out !! "planIsActive" = Some (VBool active) ∧
    (active = true
     ↔ ∃ record,
         billing_record fields = Some record ∧
         (record !! "stripe_subscription_status" = Some (VStr "active") ∨
          record !! "stripe_subscription_status" = Some (VStr "trialing"))).
Proof.
  intros Hshape.
  destruct (useFormatUser_shaped fields Hshape) as (customer & price & _ & ->).
  eexists. eexists. split; [reflexivity |]. split; [apply lookup_insert_eq |].
  rewrite includes_allow_list, !subscription_status_allowed.
  split.
  - intros [(record & ? & ?) | (record & ? & ?)]; exists record; auto.
  - intros (record & ? & [? | ?]); [left | right]; eauto.
Qed.

Lemma own_props_falsy (v : value) (k : string) :
  truthy v = false → own_props v !! k = None.
Proof.
  destruct v as [| | | |s| |]; try done. simpl.
  destruct (String.eqb_spec s "") as [-> | ?]; done.
Qed.

(** C6. For every authenticated merged user whose camel-cased billing
    record has no [providers] column, the formatted user's [providers] is
    a list of one element, the provider name of the session, with
    ["email"] replaced by ["password"] and every other name as it is. *)
Theorem provider_list_singleton (fields : gmap string value) :
  merged_user_shaped fields = true →
  (∀ customer,
     customer_of (VObj fields) = Ok customer →
     own_props (camelcaseKeys customer) !! "providers" = None) →
  ∃ out label,
    useFormatUser camelcaseKeys getFriendlyPlanId (VObj fields) = Ok (VObj out) ∧
    out !! "providers" = Some (VArr [label]) ∧
    (session_provider fields = VStr "email" → label = VStr "password") ∧
    (session_provider fields ≠ VStr "email" → label = session_provider fields).
Proof.
  intros Hshape Hcolumns.
  destruct (useFormatUser_shaped fields Hshape) as (customer & price & Hc & ->).
  eexists. exists (provider_label (session_provider fields)).
  split; [reflexivity |]. split; [| split].
  - rewrite lookup_insert_ne by done. unfold spread at 1 2.
    rewrite !lookup_union_precedence, (Hcolumns _ Hc).
    destruct (truthy price) eqn:Hprice.
    + simpl. rewrite lookup_singleton_ne by done. apply lookup_insert_eq.
    + rewrite (own_props_falsy _ _ Hprice). apply lookup_insert_eq.
  - by intros ->.
  - intros Hne. unfold provider_label.
    destruct (session_provider fields) as [| | | |name| |]; try done.
    destruct (String.eqb_spec name "email") as [-> | ?]; done.
Qed.
End FormatterProperties.

Lemma plan_is_active_allow_list_witness :
  ∃ out,
    useFormatUser camelcase_columns example_plans (VObj example_user) = Ok (VObj out) ∧
    out !! "planIsActive" = Some (VBool true).
Proof.
  destruct (plan_is_active_allow_list camelcase_columns example_plans example_user
              eq_refl) as (out & active & Hout & Hactive & Hiff).
  exists out. split; [exact Hout |].
  rewrite Hactive. do 2 f_equal. apply Hiff.
  eexists. split; [reflexivity |]. right. reflexivity.
Defined.

Lemma provider_list_singleton_witness :
  ∃ out,
    useFormatUser camelcase_columns example_plans (VObj example_user) = Ok (VObj out) ∧
    out !! "providers" = Some (VArr [VStr "password"]).
Proof.
  destruct (provider_list_singleton camelcase_columns example_plans example_user
              eq_refl) as (out & label & Hout & Hproviders & Hemail & _).
  - intros customer Hcustomer. vm_compute in Hcustomer.
    injection Hcustomer as <-. vm_compute. reflexivity.
  - exists out. split; [exact Hout |].
    rewrite Hproviders, Hemail; reflexivity.
Defined.

(** ** Profile store accessor *)

Lemma strict_eq_true (a b : value) : strict_eq a b = true → a = b.
Proof.
  destruct a, b; try done; simpl.
  - by intros ->%Bool.eqb_prop.
  - by intros ->%Z.eqb_eq.
  - by intros ->%String.eqb_eq.
Qed.

Lemma queryByKey_active (key : value) (a : accessor) :
  active_key (queryByKey key a) = key.
Proof.
  unfold queryByKey. destruct (strict_eq key (active_key a)) eqn:E; [| done].
  by apply strict_eq_true in E.
Qed.

Lemma store_result_active (issued_for : value) (r : query) (a : accessor) :
  active_key (store_result issued_for r a) = active_key a.
Proof. unfold store_result. by destruct (_ && _). Qed.

Lemma store_result_other (issued_for : value) (r : query) (a : accessor) :
  strict_eq issued_for (active_key a) = false → store_result issued_for r a = a.
Proof. unfold store_result. intros ->. by rewrite andb_false_r. Qed.

Lemma store_result_disabled (issued_for : value) (r : query) (a : accessor) :
  truthy (active_key a) = false → store_result issued_for r a = a.
Proof. unfold store_result. by intros ->. Qed.

Lemma store_results_stale (stale : string) (rs : list (value * query)) (a : accessor) :
  strict_eq (VStr stale) (active_key a) = false →
  store_results rs a
  = store_results (List.filter (λ r, negb (strict_eq r.1 (VStr stale))) rs) a.
Proof.
  revert a. induction rs as [|[issued_for r] rs IH]; intros a Hstale; [done |].
  simpl. destruct (strict_eq issued_for (VStr stale)) eqn:E; simpl.
  - apply strict_eq_true in E. subst issued_for.
    rewrite store_result_other by done. by apply IH.
  - apply IH. by rewrite store_result_active.
Qed.

Lemma store_results_disabled (rs : list (value * query)) (a : accessor) :
  truthy (active_key a) = false → store_results rs a = a.
Proof.
  induction rs as [|[issued_for r] rs IH]; intros Hoff; [done |].
  simpl. rewrite store_result_disabled by done. by apply IH.
Qed.

(** C4. Once the query is keyed by identity [B], the results that arrive
    for another identity [A] change nothing: the query handed to the merge
    and the merged user for [B] are what they are with those results left
    out. Once the query is disabled, no result changes what it holds. *)
Theorem stale_profile_result_discarded (A B : string) (session : gmap string value)
  (a : accessor) (rs : list (value * query)) :
  A ≠ B →
  session !! "id" = Some (VStr B) →
  let fresh := List.filter (λ r, negb (strict_eq r.1 (VStr A))) rs in
  useUser_after rs a (VStr B) = useUser_after fresh a (VStr B) ∧
  useMergeExtraData (useUser_after rs a) (VObj session) MERGE_DB_USER
  = useMergeExtraData (useUser_after fresh a) (VObj session) MERGE_DB_USER ∧
  (∀ disabled,
     truthy disabled = false →
     useUser_after rs a disabled = useUser_after [] a disabled).
Proof.
  intros Hdiff Hid fresh.
  assert (useUser_after rs a (VStr B) = useUser_after fresh a (VStr B)) as Hsame.
  { unfold useUser_after, fresh. f_equal. apply store_results_stale.
    rewrite queryByKey_active. simpl. by apply String.eqb_neq. }
  split; [exact Hsame |]. split.
  - unfold useMergeExtraData, query_key. simpl. rewrite Hid. simpl.
    by rewrite Hsame.
  - intros disabled Hoff. unfold useUser_after.
    by rewrite store_results_disabled by by rewrite queryByKey_active.
Qed.

Lemma stale_profile_result_discarded_witness :
  let session : gmap string value := {[ "id" := VStr "B" ]} in
  let keyed_by_A := Accessor (VStr "A") (Query VUndefined "loading" VNull) in
  let late := [(VStr "A", Query (VObj {[ "name" := VStr "Ada" ]}) "success" VNull)] in
  useMergeExtraData (useUser_after late keyed_by_A) (VObj session) MERGE_DB_USER
  = useMergeExtraData (useUser_after [] keyed_by_A) (VObj session) MERGE_DB_USER.
Proof.
  intros session keyed_by_A late.
  apply (stale_profile_result_discarded "A" "B" session keyed_by_A late).
  - discriminate.
  - reflexivity.
Defined.

(** ** Worked examples *)

Example formatted_example_fields :
  (formatted_example ≫= λ u, get u "uid") = Ok (VStr "7d1c") ∧
  (formatted_example ≫= λ u, get u "planId") = Ok (VStr "pro") ∧
  (formatted_example ≫= λ u, get u "stripePriceId") = Ok (VStr "price_pro") ∧
  (formatted_example ≫= λ u, get u "stripeSubscriptionStatus") = Ok (VStr "trialing") ∧
  (formatted_example ≫= λ u, get u "stripe_price_id") = Ok VUndefined ∧
  (formatted_example ≫= λ u, get u "email") = Ok (VStr "ada@example.com").
Proof. repeat split; vm_compute; reflexivity. Qed.

Example formatter_passes_loading_and_anonymous :
  useFormatUser camelcase_columns example_plans VNull = Ok VNull ∧
  useFormatUser camelcase_columns example_plans (VBool false) = Ok (VBool false).
Proof. split; reflexivity. Qed.

(** The profile appears after the first query found none: loading, then
    the authenticated user with the profile's name. *)
Example profile_provisioned_later :
  let session : gmap string value := {[ "id" := VStr "7d1c" ]} in
  let profile : gmap string value := {[ "name" := VStr "Ada" ]} in
  merged_of (Authenticated session) (QSucceeded None) = Ok VNull ∧
  (merged_of (Authenticated session) (QSucceeded (Some profile))
     ≫= λ u, get u "name") = Ok (VStr "Ada").
Proof. split; vm_compute; reflexivity. Qed.

Example initialize_examples :
  snd (run (λ _, Ok VNull) 0 (initialize "" VNull) (World VNull []))
  = World (VBool false) [] ∧
  snd (run (λ _, Ok VNull) 0 (initialize "#access_token=abc" VNull) (World VNull []))
  = World VNull [] ∧
  snd (run (λ _, Ok VNull) 0
         (initialize "" (VObj {[ "user" := VObj example_user ]})) (World VNull []))
  = World (VObj example_user) [].
Proof. repeat split; vm_compute; reflexivity. Qed.

Example to_string_examples :
  to_string (VArr [VNum 1; VNull; VStr "a"; VArr [VBool true; VNum (-2)]]) = "1,,a,true,-2" ∧
  to_string (VObj ∅) = "[object Object]".
Proof. split; vm_compute; reflexivity. Qed.

Example late_result_for_previous_key :
  let session : gmap string value := {[ "id" := VStr "B" ]} in
  let keyed_by_A := Accessor (VStr "A") (Query VUndefined "loading" VNull) in
  let for_A := (VStr "A", Query (VObj {[ "name" := VStr "Ada" ]}) "success" VNull) in
  let for_B := (VStr "B", Query (VObj {[ "name" := VStr "Bo" ]}) "success" VNull) in
  useMergeExtraData (useUser_after [for_A] keyed_by_A) (VObj session) MERGE_DB_USER
  = Ok VNull ∧
  (useMergeExtraData (useUser_after [for_B; for_A] keyed_by_A) (VObj session)
     MERGE_DB_USER ≫= λ u, get u "name") = Ok (VStr "Bo").
Proof. split; vm_compute; reflexivity. Qed.

Example update_profile_fields_only :
  let request : gmap string value := {[ "name" := VStr "Ada L." ]} in
  run (λ _, Ok VUndefined) 1 (updateProfile (VObj example_user) (VObj request))
    (World (VObj example_user) [])
  = (Fulfilled VUndefined,
     World (VObj example_user) [DbUpdateUser (VStr "7d1c") (VObj request)]).
Proof. vm_compute. reflexivity. Qed.

(** * Further properties of the operations *)

(** ** Errors of the provider *)

(** X1. [handleError] returns the response itself, and only when its
    [error] is falsy; otherwise it throws that [error], or the TypeError
    of reading [error] on a response that is [null] or [undefined]. *)
Theorem handleError_cases (response : value) :
  match handleError response with
  | Ok r => r = response ∧ accepted response
  | Err e =>
      (get response "error" = Err TypeError ∧ e = TypeError) ∨
      (∃ failure,
         get response "error" = Ok failure ∧ truthy failure = true ∧ e = Thrown failure)
  end.
Proof.
  unfold handleError, accepted.
  destruct (get response "error") as [failure|e] eqn:Hget; simpl.
  - destruct (truthy failure) eqn:Htruthy; eauto.
  - assert (e = TypeError) as -> by (destruct response; simpl in Hget; congruence).
    by left.
Qed.

Lemma handleError_refused (response failure : value) :
  get response "error" = Ok failure → truthy failure = true →
  handleError response = Err (Thrown failure).
Proof. intros Hget Htruthy. unfold handleError. rewrite Hget. simpl. by rewrite Htruthy. Qed.

(** ** Operations and the session user *)

Lemma quiet_run {A : Type} (p : proc A) :
  quiet p →
  ∀ remote turns w, user (snd (run remote turns p w)) = user w.
Proof.
  induction 1 as [a | e | c k Hk IH |]; intros remote turns w; simpl; try done.
  destruct turns as [|n]; [done |].
  destruct (remote c) as [v|e]; [| done].
  by rewrite IH.
Qed.

Lemma quiet_lift {A : Type} (r : result A) : quiet (lift r).
Proof. destruct r; constructor. Qed.

Lemma quiet_bind {A B : Type} (p : proc A) (f : A → proc B) :
  quiet p → (∀ a, quiet (f a)) → quiet (p ≫= f).
Proof.
  intros Hp Hf. induction Hp as [a | e | c k Hk IH |]; simpl.
  - apply Hf.
  - constructor.
  - constructor. intros v. apply IH.
  - constructor.
Qed.

(** X2. When the provider answers a sign-up or a sign-in with an error,
    the operation rejects with that error object and the session user is
    left as it was. *)
Theorem provider_error_rejects_sign_in (f : password_flow)
  (remote : ext_call → result value) (email password response failure : value)
  (w : world) (n : nat) :
  remote (flow_call f email password) = Ok response →
  get response "error" = Ok failure →
  truthy failure = true →
  run remote (S n) (flow_operation f email password) w
  = (Rejected (Thrown failure),
     World (user w) (issued w ++ [flow_call f email password])).
Proof.
  intros Hr Hget Htruthy.
  destruct f; simpl in *; rewrite Hr;
    by rewrite (handleError_refused _ _ Hget Htruthy).
Qed.

Lemma provider_error_rejects_sign_in_witness :
  let failure := VObj {[ "message" := VStr "Invalid login credentials" ]} in
  let reply := VObj (<["user" := VNull]> {[ "error" := failure ]}) in
  let email := VStr "ada@example.com" in
  let password := VStr "wrong" in
  run (λ _, Ok reply) 1 (signin email password) (World (VBool false) [])
  = (Rejected (Thrown failure),
     World (VBool false) [AuthSignIn (credentials email password) VUndefined]).
Proof.
  intros failure reply email password.
  apply (provider_error_rejects_sign_in SignIn (λ _, Ok reply) email password reply
           failure (World (VBool false) []) 0).
  - reflexivity.
  - reflexivity.
  - reflexivity.
Defined.

Lemma handleAuth_outcome (remote : ext_call → result value) (turns : nat)
  (response : value) (w : world) :
  let r := run remote turns (handleAuth response) w in
  issued (snd r) = issued w ∧
  match fst r with
  | Fulfilled identity =>
      user (snd r) = identity ∧
      ∃ timestamp,
        get identity "email_confirmed_at" = Ok timestamp ∧ truthy timestamp = true
  | Rejected _ | Pending => user (snd r) = user w
  end.
Proof.
  unfold handleAuth.
  destruct (get response "user") as [identity|e]; simpl; [| done].
  destruct (get identity "email_confirmed_at") as [timestamp|e] eqn:Hts; simpl; [| done].
  destruct (truthy timestamp) eqn:Htruthy; simpl; [| done].
  split; [done |]. split; [done |]. eauto.
Qed.

(** X3. Whatever the provider answers and however long one waits, a
    sign-up or a sign-in issues its one provider call and changes the
    session user only by fulfilling: the user it resolves with is then the
    session user and has an email-confirmation timestamp; pending or
    rejected, it leaves the session user as it was. *)
Theorem sign_in_changes_state_only_on_success (f : password_flow)
  (remote : ext_call → result value) (email password : value)
  (w : world) (turns : nat) :
  let r := run remote turns (flow_operation f email password) w in
  issued (snd r) = issued w ++ [flow_call f email password] ∧
  match fst r with
  | Fulfilled identity =>
      user (snd r) = identity ∧
      ∃ timestamp,
        get identity "email_confirmed_at" = Ok timestamp ∧ truthy timestamp = true
  | Rejected _ | Pending => user (snd r) = user w
  end.
Proof.
  destruct f; simpl;
    (destruct turns as [|n]; [done |]);
    (destruct (remote _) as [response|e]; [| done]);
    (destruct (handleError response) as [response'|e]; simpl; [| done]);
    exact (handleAuth_outcome remote n response' (World (user w) (issued w ++ [_]))).
Qed.

(** X4. [signout], [sendPasswordResetEmail] and [updatePassword] make one
    provider call and settle as [handleError] decides on the answer; none
    of them touches the session user, so after a sign-out it is the
    session-change event that makes the user anonymous. *)
Theorem pass_through_operations (remote : ext_call → result value)
  (email password : value) (w : world) (n : nat) :
  run remote (S n) signout w
  = (settle (remote AuthSignOut ≫= handleError),
     World (user w) (issued w ++ [AuthSignOut])) ∧
  run remote (S n) (sendPasswordResetEmail email) w
  = (settle (remote (AuthResetPasswordForEmail email) ≫= handleError),
     World (user w) (issued w ++ [AuthResetPasswordForEmail email])) ∧
  run remote (S n) (updatePassword password) w
  = (settle (remote (AuthUpdate (VObj {[ "password" := password ]})) ≫= handleError),
     World (user w) (issued w ++ [AuthUpdate (VObj {[ "password" := password ]})])).
Proof.
  unfold signout, sendPasswordResetEmail, updatePassword. simpl.
  repeat split.
  - destruct (remote AuthSignOut) as [response|e]; simpl; [| done].
    by destruct (handleError response).
  - destruct (remote (AuthResetPasswordForEmail email)) as [response|e]; simpl; [| done].
    by destruct (handleError response).
  - destruct (remote (AuthUpdate _)) as [response|e]; simpl; [| done].
    by destruct (handleError response).
Qed.

(** X5. Whatever the provider answers, the promise of
    [signinWithProvider] is never fulfilled: it is rejected when the call
    fails or [handleError] throws, pending otherwise; the session user
    stays as it was and the one call made asks for a redirect to
    [/dashboard] on the current origin. *)
Theorem redirect_sign_in_never_fulfils (origin : string) (name : value)
  (remote : ext_call → result value) (w : world) (n : nat) :
  run remote (S n) (signinWithProvider origin name) w
  = (match remote (redirect_call origin name) ≫= handleError with
     | Ok _ => Pending
     | Err e => Rejected e
     end,
     World (user w) (issued w ++ [redirect_call origin name])) ∧
  (∀ turns v, fst (run remote turns (signinWithProvider origin name) w) ≠ Fulfilled v).
Proof.
  assert (run remote (S n) (signinWithProvider origin name) w
          = (match remote (redirect_call origin name) ≫= handleError with
             | Ok _ => Pending
             | Err e => Rejected e
             end,
             World (user w) (issued w ++ [redirect_call origin name]))) as Hrun.
  { unfold signinWithProvider, redirect_call. simpl.
    destruct (remote _) as [response|e]; simpl; [| done].
    by destruct (handleError response). }
  split; [exact Hrun |].
  intros [|m] v; [done |].
  unfold signinWithProvider. simpl.
  destruct (remote _) as [response|e]; simpl; [| done].
  by destruct (handleError response).
Qed.

(** ** [updateProfile] *)

Lemma quiet_updateProfile (u data : value) : quiet (updateProfile u data).
Proof.
  unfold updateProfile.
  apply quiet_bind; [apply quiet_lift |]. intros email.
  apply quiet_bind; [apply quiet_lift |]. intros [|].
  - constructor. intros response.
    apply quiet_bind; [apply quiet_lift |]. intros _. constructor.
  - destruct (0 <? size _); [| constructor].
    apply quiet_bind; [apply quiet_lift |]. intros id.
    constructor. intros _. constructor.
Qed.

Lemma size_positive (m : gmap string value) : m ≠ ∅ → (0 <? size m) = true.
Proof.
  intros Hne. apply Nat.ltb_lt.
  destruct (size m) eqn:Hsize; [| lia].
  by apply map_size_empty_iff in Hsize.
Qed.

(** What is left of [updateProfile] when the request changes no email. *)
Lemma updateProfile_no_email (u : value) (request : gmap string value) :
  truthy (default VUndefined (request !! "email")) = false →
  updateProfile u (VObj request)
  = if 0 <? size (delete "email" request) then
      id ← lift (get u "id");
      Await (DbUpdateUser id (VObj (delete "email" request))) (λ _, Ret VUndefined)
    else Ret VUndefined.
Proof. intros Hfalsy. unfold updateProfile. simpl. by rewrite Hfalsy. Qed.

(** X6. A request that changes no email (its [email] is missing or falsy)
    and has other fields is written to the profile store under the user's
    id, without the [email] property; the operation resolves once the
    store has answered, rejects if the store rejects, and makes no call to
    the provider. *)
Theorem profile_fields_persisted (remote : ext_call → result value)
  (u id : value) (request : gmap string value) (w : world) (n : nat) :
  truthy (default VUndefined (request !! "email")) = false →
  delete "email" request ≠ ∅ →
  get u "id" = Ok id →
  let write := DbUpdateUser id (VObj (delete "email" request)) in
  run remote (S n) (updateProfile u (VObj request)) w
  = (match remote write with
     | Ok _ => Fulfilled VUndefined
     | Err e => Rejected e
     end,
     World (user w) (issued w ++ [write])).
Proof.
  intros Hfalsy Hother Hid write. subst write.
  rewrite (updateProfile_no_email _ _ Hfalsy), (size_positive _ Hother), Hid.
  simpl. by destruct (remote _).
Qed.

Lemma profile_fields_persisted_witness :
  let request : gmap string value :=
    <["name" := VStr "Ada L."]> {[ "email" := VStr "" ]} in
  let write := DbUpdateUser (VStr "7d1c") (VObj {[ "name" := VStr "Ada L." ]}) in
  run (λ _, Err (Error "network")) 1 (updateProfile (VObj example_user) (VObj request))
    (World (VObj example_user) [])
  = (Rejected (Error "network"), World (VObj example_user) [write]).
Proof.
  intros request write.
  apply (profile_fields_persisted (λ _, Err (Error "network")) (VObj example_user)
           (VStr "7d1c") request (World (VObj example_user) []) 0).
  - reflexivity.
  - intros Hempty. apply (f_equal (λ m : gmap string value, m !! "name")) in Hempty.
    vm_compute in Hempty. discriminate.
  - reflexivity.
Defined.

(** X7. A request that changes the email makes the provider call and
    nothing else: whatever the provider answers and however long one
    waits, the other fields of the same request are never written to the
    profile store, the operation is never fulfilled, and the session user
    stays as it was. *)
Theorem email_change_drops_other_fields (remote : ext_call → result value)
  (fields request : gmap string value) (current new : string) (w : world) (turns : nat) :
  fields !! "email" = Some (VStr current) →
  request !! "email" = Some (VStr new) →
  new ≠ "" → new ≠ current →
  let r := run remote turns (updateProfile (VObj fields) (VObj request)) w in
  issued (snd r) = issued w ++ [email_update_call new] ∧
  user (snd r) = user w ∧
  ∀ v, fst r ≠ Fulfilled v.
Proof.
  intros Hcur Hnew Hne Hdiff r. subst r.
  rewrite (updateProfile_changed _ _ fields request current new
             eq_refl eq_refl Hcur Hnew Hne Hdiff).
  simpl. destruct turns as [|n]; [done |].
  destruct (remote _) as [response|e]; [| done].
  by destruct (handleError response).
Qed.

Lemma email_change_drops_other_fields_witness :
  let fields : gmap string value := {[ "email" := VStr "old@example.com" ]} in
  let request : gmap string value :=
    <["name" := VStr "Ada L."]> {[ "email" := VStr "new@example.com" ]} in
  let reply := VObj (<["user" := VObj fields]> {[ "error" := VNull ]}) in
  issued (snd (run (λ _, Ok reply) 5 (updateProfile (VObj fields) (VObj request))
                 (World (VObj fields) [])))
  = [email_update_call "new@example.com"].
Proof.
  intros fields request reply.
  apply (email_change_drops_other_fields (λ _, Ok reply) fields request
           "old@example.com" "new@example.com" (World (VObj fields) []) 5).
  - reflexivity.
  - reflexivity.
  - discriminate.
  - discriminate.
Defined.

(** X8. A request with nothing to change (no other field, and an [email]
    that is missing or falsy) resolves at once, with no call and no read
    of the user: it does so even while the user is [null] or [false]. *)
Theorem empty_update_is_noop (remote : ext_call → result value)
  (u : value) (request : gmap string value) (w : world) (turns : nat) :
  truthy (default VUndefined (request !! "email")) = false →
  delete "email" request = ∅ →
  run remote turns (updateProfile u (VObj request)) w = (Fulfilled VUndefined, w).
Proof.
  intros Hfalsy Hother.
  by rewrite (updateProfile_no_email _ _ Hfalsy), Hother.
Qed.

Lemma empty_update_is_noop_witness :
  run (λ _, Ok VUndefined) 0 (updateProfile VNull (VObj ∅)) (World VNull [])
  = (Fulfilled VUndefined, World VNull []).
Proof.
  apply (empty_update_is_noop (λ _, Ok VUndefined) VNull ∅ (World VNull []) 0).
  - reflexivity.
  - reflexivity.
Defined.

(** X9. For every user, every argument, every behaviour of the provider
    and the store and every number of turns, [updateProfile] leaves the
    session user as it was and makes at most one call: an email update at
    the provider, or a write to the profile store whose fields have no
    [email] property. *)
Theorem updateProfile_effects (remote : ext_call → result value)
  (u data : value) (w : world) (turns : nat) :
  let r := run remote turns (updateProfile u data) w in
  user (snd r) = user w ∧
  (issued (snd r) = issued w ∨
   (∃ email, issued (snd r) = issued w ++ [AuthUpdate (VObj {[ "email" := email ]})]) ∨
   (∃ id other,
      issued (snd r) = issued w ++ [DbUpdateUser id (VObj other)] ∧
      other !! "email" = None)).
Proof.
  intros r. subst r. split; [apply quiet_run, quiet_updateProfile |].
  unfold updateProfile.
  destruct (get data "email") as [email|e]; simpl; [| by left].
  destruct (if truthy email then _ else _) as [[|]|e]; simpl; [| | by left].
  - right. left. exists email.
    destruct turns as [|n]; [done |].
    destruct (remote _) as [response|e]; [| done].
    by destruct (handleError response).
  - destruct (0 <? size _); [| by left].
    destruct (get u "id") as [id|e]; simpl; [| by left].
    right. right. exists id, (delete "email" (own_props data)).
    split; [| apply lookup_delete_eq].
    destruct turns as [|n]; [done |].
    by destruct (remote _).
Qed.

(** X10. While the user is still loading ([null]), a request that would
    change something (a truthy [email], or any other field) rejects with a
    TypeError before any call is made. *)
Theorem updateProfile_while_loading (remote : ext_call → result value)
  (request : gmap string value) (w : world) (turns : nat) :
  truthy (default VUndefined (request !! "email")) = true ∨
  delete "email" request ≠ ∅ →
  run remote turns (updateProfile VNull (VObj request)) w = (Rejected TypeError, w).
Proof.
  intros Hchange.
  destruct (truthy (default VUndefined (request !! "email"))) eqn:Hemail.
  - unfold updateProfile. simpl. by rewrite Hemail.
  - destruct Hchange as [? | Hother]; [done |].
    by rewrite (updateProfile_no_email _ _ Hemail), (size_positive _ Hother).
Qed.

Lemma updateProfile_while_loading_witness :
  let request : gmap string value := {[ "email" := VStr "new@example.com" ]} in
  run (λ _, Ok VUndefined) 3 (updateProfile VNull (VObj request)) (World VNull [])
  = (Rejected TypeError, World VNull []).
Proof.
  intros request.
  apply (updateProfile_while_loading (λ _, Ok VUndefined) request (World VNull []) 3).
  left. reflexivity.
Defined.

(** ** Session-change events and the mount *)

Lemma onAuthStateChange_run (remote : ext_call → result value) (turns : nat)
  (session : value) (w : world) :
  run remote turns (onAuthStateChange session) w
  = (Fulfilled VUndefined, World (session_user session) (issued w)).
Proof.
  unfold onAuthStateChange, session_user.
  destruct (truthy session) eqn:Hs; [| done].
  by destruct session.
Qed.

(** X11. The callback of [onAuthStateChange] never throws and makes no
    call: it stores the event's user, or [false] when the event has no
    session. So after any sequence of events the state is the one the
    last event alone would leave: replaying an event changes nothing. *)
Theorem session_events_last_wins :
  (∀ remote turns session w,
     run remote turns (onAuthStateChange session) w
     = (Fulfilled VUndefined, World (session_user session) (issued w))) ∧
  (∀ sessions session w,
     after_events (sessions ++ [session]) w
     = World (session_user session) (issued w)) ∧
  (∀ session w, after_events [session; session] w = after_events [session] w).
Proof.
  split; [exact onAuthStateChange_run |].
  assert (∀ sessions w, issued (after_events sessions w) = issued w) as Hissued.
  { induction sessions as [|s sessions IH]; intros w; [done |].
    simpl. rewrite IH. by rewrite onAuthStateChange_run. }
  split.
  - intros sessions session w. unfold after_events. rewrite foldl_app. simpl.
    rewrite onAuthStateChange_run. simpl. f_equal. apply Hissued.
  - intros session w. unfold after_events. simpl.
    by rewrite !onAuthStateChange_run.
Qed.

Lemma substring_head (t suf : string) :
  String.substring 0 (String.length t) (t +:+ suf) = t.
Proof.
  induction t as [|c t IH]; simpl.
  - by destruct suf.
  - by rewrite IH.
Qed.

Lemma substring_at (pre t suf : string) :
  String.substring (String.length pre) (String.length t) (pre +:+ t +:+ suf) = t.
Proof.
  induction pre as [|c pre IH]; [exact (substring_head t suf) | exact IH].
Qed.

Lemma substring_prefix (t s : string) :
  String.substring 0 (String.length t) s = t → ∃ suf, s = t +:+ suf.
Proof.
  revert s. induction t as [|c t IH]; intros s; simpl.
  - intros _. by exists s.
  - destruct s as [|c' s]; [done |].
    intros [= -> Hrest]. destruct (IH _ Hrest) as [suf ->]. by exists suf.
Qed.

Lemma substring_split (m : nat) (t s : string) :
  t ≠ "" → String.substring m (String.length t) s = t → ∃ pre suf, s = pre +:+ t +:+ suf.
Proof.
  intros Ht. revert s. induction m as [|m IH]; intros s Hsub.
  - destruct (substring_prefix _ _ Hsub) as [suf ->]. by exists "", suf.
  - destruct s as [|c s].
    + destruct t; [done | by destruct m].
    + simpl in Hsub. destruct (IH _ Hsub) as (pre & suf & ->).
      by exists (String c pre), suf.
Qed.

Lemma marker_found (hash : string) :
  (∃ pre suf, hash = pre +:+ access_token_marker +:+ suf)
  ↔ String.index 0 access_token_marker hash ≠ None.
Proof.
  split.
  - intros (pre & suf & ->) Hnone.
    apply (String.index_correct3 0 (String.length pre) _ _ Hnone); [done | lia |].
    apply substring_at.
  - destruct (String.index 0 access_token_marker hash) as [m|] eqn:Hindex; [| done].
    intros _. apply String.index_correct1 in Hindex.
    by apply (substring_split m).
Qed.

Lemma initialize_marker (hash : string) (session : value) :
  (∃ pre suf, hash = pre +:+ access_token_marker +:+ suf) →
  initialize hash session = Ret VUndefined.
Proof.
  rewrite marker_found. unfold initialize, access_token_marker.
  by destruct (String.index 0 "#access_token=" hash).
Qed.

Lemma initialize_no_marker (hash : string) (session : value) :
  (¬ ∃ pre suf, hash = pre +:+ access_token_marker +:+ suf) →
  initialize hash session = onAuthStateChange session.
Proof.
  rewrite marker_found. unfold initialize, access_token_marker.
  destruct (String.index 0 "#access_token=" hash); [| done].
  intros H. by destruct H.
Qed.

(** X12. The mount consults the cached session exactly when
    [#access_token=] occurs nowhere in the hash: with the marker anywhere
    in it the effect sets nothing, and without it the effect does what the
    event callback does with the cached session. *)
Theorem initialize_cases (hash : string) (session : value) :
  ((∃ pre suf, hash = pre +:+ access_token_marker +:+ suf) →
   initialize hash session = Ret VUndefined) ∧
  ((¬ ∃ pre suf, hash = pre +:+ access_token_marker +:+ suf) →
   initialize hash session = onAuthStateChange session).
Proof. split; [apply initialize_marker | apply initialize_no_marker]. Qed.

Lemma initialize_cases_witness :
  initialize "#access_token=eyJhbGciOi&token_type=bearer" VNull = Ret VUndefined ∧
  initialize "#pricing" VNull = onAuthStateChange VNull.
Proof.
  split.
  - apply (proj1 (initialize_cases "#access_token=eyJhbGciOi&token_type=bearer" VNull)).
    exists "", "eyJhbGciOi&token_type=bearer". reflexivity.
  - apply (proj2 (initialize_cases "#pricing" VNull)).
    rewrite marker_found. intros Hfound. apply Hfound. reflexivity.
Defined.

(** ** Data merge stage, on any value *)


(** X14. Only [null] data means that the profile is not there yet. With
    status ["success"] and data that is not [null] the merge returns an
    object with the user's properties overlaid by the data's, so for data
    that is [undefined] it returns the session user's own properties. *)
Theorem merge_success_not_null (fields : gmap string value) (q : query) :
  status q = "success" →
  strict_eq (data q) VNull = false →
  mergeExtraData (VObj fields) true q = Ok (VObj (own_props (data q) ∪ fields)) ∧
  (data q = VUndefined → mergeExtraData (VObj fields) true q = Ok (VObj fields)).
Proof.
  intros Hs Hnull.
  assert (mergeExtraData (VObj fields) true q = Ok (VObj (own_props (data q) ∪ fields)))
    as Hmerge.
  { unfold mergeExtraData. simpl. rewrite Hs, Hnull. simpl.
    by rewrite spread_object_first. }
  split; [exact Hmerge |].
  intros Hundef. rewrite Hmerge, Hundef. simpl. by rewrite (left_id_L ∅ (∪)).
Qed.

Lemma merge_success_not_null_witness :
  mergeExtraData (VObj example_user) true (Query VUndefined "success" VNull)
  = Ok (VObj example_user).
Proof.
  apply (merge_success_not_null example_user (Query VUndefined "success" VNull)).
  - reflexivity.
  - reflexivity.
  - reflexivity.
Defined.

(** X15. The key handed to [useUser] is never an error, and it is truthy
    only when merging is enabled and the user is an object whose [id] is
    that key: the profile query is disabled for a loading and for an
    anonymous session. *)
Theorem query_enabled_only_for_user (u : SessionUser) (enabled : bool) :
  ∃ key,
    query_key (js_user u) enabled = Ok key ∧
    (truthy key = true
     ↔ enabled = true ∧ ∃ fields, u = Authenticated fields ∧
                                  fields !! "id" = Some key ∧ truthy key = true).
Proof.
  unfold query_key.
  destruct enabled.
  - destruct u as [| |fields]; simpl.
    + exists VNull. split; [done |]. split; [done | by intros (_ & ? & ? & ? & ?)].
    + exists (VBool false). split; [done |]. split; [done | by intros (_ & ? & ? & ? & ?)].
    + exists (default VUndefined (fields !! "id")). split; [done |]. split.
      * intros Hkey. split; [done |]. exists fields.
        destruct (fields !! "id"); [done | done].
      * by intros (_ & ? & ? & ? & ?).
  - exists (VBool false). split; [done |]. split; [done | by intros [? _]].
Qed.

(** ** The merge followed by the formatter *)

Section FinalUser.
Variable camelcaseKeys : value → value.
Variable getFriendlyPlanId : value → value.

(** X16. [finalUser], the merge followed by the formatter, is [null] for a
    loading session and [false] for an anonymous one whatever the query
    holds, and [null] for an authenticated session whose profile query is
    pending or found no record; with a record it is the formatter's result
    on the union of session and profile. *)
Theorem finalUser_cases :
  (∀ q, finalUser camelcaseKeys getFriendlyPlanId (λ _, js_query q) (js_user Loading)
        = Ok VNull) ∧
  (∀ q, finalUser camelcaseKeys getFriendlyPlanId (λ _, js_query q) (js_user Anonymous)
        = Ok (VBool false)) ∧
  (∀ session fetching,
     finalUser camelcaseKeys getFriendlyPlanId (λ _, js_query (QPending fetching))
       (js_user (Authenticated session)) = Ok VNull) ∧
  (∀ session,
     finalUser camelcaseKeys getFriendlyPlanId (λ _, js_query (QSucceeded None))
       (js_user (Authenticated session)) = Ok VNull) ∧
  (∀ session profile,
     finalUser camelcaseKeys getFriendlyPlanId (λ _, js_query (QSucceeded (Some profile)))
       (js_user (Authenticated session))
     = useFormatUser camelcaseKeys getFriendlyPlanId (VObj (profile ∪ session))).
Proof.
  assert (∀ u q, finalUser camelcaseKeys getFriendlyPlanId (λ _, js_query q) (js_user u)
                 = (js_user <$> merge_rule u q)
                     ≫= useFormatUser camelcaseKeys getFriendlyPlanId) as Hrule.
  { intros u q. unfold finalUser. fold (merged_of u q). by rewrite merged_of_rule. }
  repeat split; intros; by rewrite Hrule.
Qed.
End FinalUser.

(** ** Presentation formatter, on any object *)

Section FormatterFurther.
Variable camelcaseKeys : value → value.
Variable getFriendlyPlanId : value → value.

Lemma get_truthy (v : value) (k : string) :
  truthy v = true → ∃ x, get v k = Ok x.
Proof. destruct v; simpl; intros; by eauto. Qed.

Lemma customer_of_object (fields : gmap string value) :
  ∃ customer, customer_of (VObj fields) = Ok customer ∧ truthy customer = true.
Proof.
  unfold customer_of. simpl.
  destruct (truthy (default VUndefined (fields !! "customers"))) eqn:Hc.
  - assert (∃ first, get_index (default VUndefined (fields !! "customers")) 0 = Ok first)
      as [first ->] by (destruct (default VUndefined _); by eauto).
    simpl. destruct (truthy first) eqn:Hfirst; by eauto.
  - simpl. rewrite Hc. by eauto.
Qed.

Lemma customer_of_record (fields record : gmap string value) :
  billing_record fields = Some record → customer_of (VObj fields) = Ok (VObj record).
Proof.
  unfold billing_record, customer_of. simpl.
  destruct (fields !! "customers") as [[| | | | |[|[] rest]|]|]; try done.
  by intros [= ->].
Qed.

(** The object that the formatter returns for a user with an
    [app_metadata]. *)
Lemma useFormatUser_object (fields : gmap string value) (customer price subscription : value) :
  ¬ absent (default VUndefined (fields !! "app_metadata")) →
  customer_of (VObj fields) = Ok customer →
  get customer "stripe_price_id" = Ok price →
  get customer "stripe_subscription_status" = Ok subscription →
  ∃ providers,
    useFormatUser camelcaseKeys getFriendlyPlanId (VObj fields)
    = Ok (VObj
            (<["planIsActive" :=
                 VBool (includes [VStr "active"; VStr "trialing"] subscription)]>
               (spread (if truthy price
                        then VObj {[ "planId" := getFriendlyPlanId price ]}
                        else price)
                  (spread (camelcaseKeys customer)
                     (<["providers" := providers]>
                        (<["uid" := default VUndefined (fields !! "id")]> fields)))))).
Proof.
  intros Hmeta Hc Hp Hs. unfold useFormatUser. simpl.
  destruct (get (default VUndefined (fields !! "app_metadata")) "provider")
    as [provider|e] eqn:Hprovider.
  - simpl. rewrite Hc. simpl. rewrite Hp. simpl. rewrite Hs. simpl.
    rewrite spread_object_first. by eexists.
  - exfalso. apply Hmeta. unfold absent.
    destruct (default VUndefined _); simpl in Hprovider; try done; auto.
Qed.

(** X17. On an object the formatter fails exactly when the object has no
    [app_metadata] (missing, [undefined] or [null]), and then with the
    TypeError of reading [provider] on it; otherwise it returns an object,
    whatever [customers] holds. *)
Theorem formatter_needs_app_metadata (fields : gmap string value) :
  (absent (default VUndefined (fields !! "app_metadata")) →
   useFormatUser camelcaseKeys getFriendlyPlanId (VObj fields) = Err TypeError) ∧
  (¬ absent (default VUndefined (fields !! "app_metadata")) →
   ∃ out, useFormatUser camelcaseKeys getFriendlyPlanId (VObj fields) = Ok (VObj out)).
Proof.
  split.
  - intros Habsent. unfold useFormatUser. simpl.
    by destruct Habsent as [-> | ->].
  - intros Hmeta.
    destruct (customer_of_object fields) as (customer & Hc & Htruthy).
    destruct (get_truthy customer "stripe_price_id" Htruthy) as [price Hp].
    destruct (get_truthy customer "stripe_subscription_status" Htruthy) as [s Hs].
    destruct (useFormatUser_object fields customer price s Hmeta Hc Hp Hs)
      as [providers ->].
    by eexists.
Qed.

(** X18. With a billing record whose price id is truthy, the formatted
    user's [planId] is what [getFriendlyPlanId] returns for that price,
    whatever the user and the camel-cased record hold under that name;
    with a falsy or missing price id the formatter adds no [planId] of its
    own. *)
Theorem plan_id_from_price (fields record : gmap string value) :
  ¬ absent (default VUndefined (fields !! "app_metadata")) →
  billing_record fields = Some record →
  let price := default VUndefined (record !! "stripe_price_id") in
  ∃ out,
    useFormatUser camelcaseKeys getFriendlyPlanId (VObj fields) = Ok (VObj out) ∧
    (truthy price = true → out !! "planId" = Some (getFriendlyPlanId price)) ∧
    (truthy price = false →
     out !! "planId" = (own_props (camelcaseKeys (VObj record)) ∪ fields) !! "planId").
Proof.
  intros Hmeta Hrecord price.
  destruct (useFormatUser_object fields (VObj record) price
              (default VUndefined (record !! "stripe_subscription_status")) Hmeta
              (customer_of_record _ _ Hrecord) eq_refl eq_refl) as [providers ->].
  eexists. split; [reflexivity |]. split.
  - intros Htruthy. rewrite lookup_insert_ne by done. unfold spread at 1.
    rewrite lookup_union_precedence, Htruthy. simpl.
    by rewrite lookup_singleton_eq.
  - intros Hfalsy. rewrite lookup_insert_ne by done. unfold spread.
    rewrite !lookup_union_precedence, Hfalsy, (own_props_falsy _ _ Hfalsy).
    destruct (own_props (camelcaseKeys (VObj record)) !! "planId"); [done |].
    by rewrite !lookup_insert_ne.
Qed.

(** X19. The formatted user keeps every property of the user under its
    name and value, except [uid], [providers], [planId] and [planIsActive]
    and the names of the camel-cased billing record; and its [uid] is the
    user's [id] unless the camel-cased billing record has a [uid]. *)
Theorem formatter_keeps_user_fields (fields : gmap string value) (customer : value) :
  ¬ absent (default VUndefined (fields !! "app_metadata")) →
  customer_of (VObj fields) = Ok customer →
  ∃ out,
    useFormatUser camelcaseKeys getFriendlyPlanId (VObj fields) = Ok (VObj out) ∧
    (∀ k, k ∉ ["uid"; "providers"; "planId"; "planIsActive"] →
          own_props (camelcaseKeys customer) !! k = None →
          out !! k = fields !! k) ∧
    (own_props (camelcaseKeys customer) !! "uid" = None →
     out !! "uid" = Some (default VUndefined (fields !! "id"))).
Proof.
  intros Hmeta Hc.
  destruct (customer_of_object fields) as (customer' & Hc' & Htruthy).
  assert (customer' = customer) as -> by congruence.
  destruct (get_truthy customer "stripe_price_id" Htruthy) as [price Hp].
  destruct (get_truthy customer "stripe_subscription_status" Htruthy) as [s Hs].
  destruct (useFormatUser_object fields customer price s Hmeta Hc Hp Hs)
    as [providers ->].
  eexists. split; [reflexivity |].
  assert (∀ k, k ≠ "planId" →
               own_props (if truthy price
                          then VObj {[ "planId" := getFriendlyPlanId price ]}
                          else price) !! k = None) as Hplan.
  { intros k Hk. destruct (truthy price) eqn:Hprice.
    - simpl. by rewrite lookup_singleton_ne.
    - by apply own_props_falsy. }
  split.
  - intros k Hk Hcolumns.
    rewrite lookup_insert_ne by set_solver. unfold spread.
    rewrite !lookup_union_precedence, Hplan by set_solver.
    rewrite Hcolumns. rewrite !lookup_insert_ne by set_solver. done.
  - intros Hcolumns.
    rewrite lookup_insert_ne by done. unfold spread.
    rewrite !lookup_union_precedence, Hplan by done.
    rewrite Hcolumns. rewrite lookup_insert_ne by done. apply lookup_insert_eq.
Qed.
End FormatterFurther.

Lemma formatter_needs_app_metadata_witness :
  useFormatUser camelcase_columns example_plans (VObj {[ "id" := VStr "7d1c" ]})
  = Err TypeError.
Proof.
  apply (proj1 (formatter_needs_app_metadata camelcase_columns example_plans
                  {[ "id" := VStr "7d1c" ]})).
  left. reflexivity.
Defined.

Lemma plan_id_from_price_witness :
  ∃ out,
    useFormatUser camelcase_columns example_plans (VObj example_user) = Ok (VObj out) ∧
    out !! "planId" = Some (VStr "pro").
Proof.
  destruct (plan_id_from_price camelcase_columns example_plans example_user
              (<["stripe_subscription_status" := VStr "trialing"]>
                 (<["stripe_price_id" := VStr "price_pro"]> {[ "id" := VStr "7d1c" ]})))
    as (out & Hout & Hprice & _).
  - intros [H | H]; vm_compute in H; discriminate.
  - reflexivity.
  - exists out. split; [exact Hout |]. apply Hprice. reflexivity.
Defined.

Lemma formatter_keeps_user_fields_witness :
  ∃ out,
    useFormatUser camelcase_columns example_plans (VObj example_user) = Ok (VObj out) ∧
    out !! "email" = Some (VStr "ada@example.com") ∧
    out !! "uid" = Some (VStr "7d1c").
Proof.
  destruct (formatter_keeps_user_fields camelcase_columns example_plans example_user
              (VObj (<["stripe_subscription_status" := VStr "trialing"]>
                       (<["stripe_price_id" := VStr "price_pro"]>
                          {[ "id" := VStr "7d1c" ]}))))
    as (out & Hout & Hkeep & Huid).
  - intros [H | H]; vm_compute in H; discriminate.
  - reflexivity.
  - exists out. split; [exact Hout |]. split.
    + rewrite (Hkeep "email"); [reflexivity | | reflexivity].
      intros Hin. repeat (apply elem_of_cons in Hin as [Hin | Hin]; [discriminate |]).
      by apply elem_of_nil in Hin.
    + apply Huid. reflexivity.
Defined.

(** ** From the mount to the gate *)

(** X20. A page opened on the return from an OAuth or magic-link flow
    (the hash contains [#access_token=]) keeps the user loading, so
    [finalUser] is [null] and the gate mounts on the placeholder without
    redirecting. A page opened without the marker and without a cached
    session makes the user anonymous, and the gate redirects to the
    sign-in page once on mount. *)
Theorem mount_after_initialize (camelcaseKeys getFriendlyPlanId : value → value)
  (useUser : value → query) (remote : ext_call → result value) (turns : nat)
  (hash : string) (session props : value) :
  let w := snd (run remote turns (initialize hash session) (World VNull [])) in
  ((∃ pre suf, hash = pre +:+ access_token_marker +:+ suf) →
   finalUser camelcaseKeys getFriendlyPlanId useUser (user w) = Ok VNull ∧
   mount VNull props = (PageLoader, Page (Auth 0 VNull) 1 (Some 0) [])) ∧
  ((¬ ∃ pre suf, hash = pre +:+ access_token_marker +:+ suf) →
   truthy session = false →
   finalUser camelcaseKeys getFriendlyPlanId useUser (user w) = Ok (VBool false) ∧
   mount (VBool false) props
   = (PageLoader, Page (Auth 0 (VBool false)) 1 (Some 0) ["/auth/signin"])).
Proof.
  intros w. subst w. split.
  - intros Hmarker. by rewrite (initialize_marker _ _ Hmarker).
  - intros Hnone Hsession.
    rewrite (initialize_no_marker _ _ Hnone), onAuthStateChange_run.
    unfold session_user. by rewrite Hsession.
Qed.

Lemma mount_after_initialize_witness :
  let w := snd (run (λ _, Ok VUndefined) 0 (initialize "" VNull) (World VNull [])) in
  finalUser camelcase_columns example_plans (λ _, Query VUndefined "idle" VNull) (user w)
  = Ok (VBool false) ∧
  mount (VBool false) VUndefined
  = (PageLoader, Page (Auth 0 (VBool false)) 1 (Some 0) ["/auth/signin"]).
Proof.
  apply (proj2 (mount_after_initialize camelcase_columns example_plans
                  (λ _, Query VUndefined "idle" VNull) (λ _, Ok VUndefined) 0
                  "" VNull VUndefined)).
  - rewrite marker_found. intros Hfound. apply Hfound. reflexivity.
  - reflexivity.
Defined.

(** ** [schema.sql] *)

Lemma sql_or_bounds (n low high : nat) :
  low ≤ S high →
  Schema.sql_or (Schema.sql_ge (Some n) low) (Schema.sql_le (Some n) high) = Some true.
Proof.
  intros Hbounds. unfold Schema.sql_or, Schema.sql_ge, Schema.sql_le. simpl.
  destruct (Nat.leb_spec low n); [done |].
  destruct (Nat.leb_spec n high); [done | lia].
Qed.

(** X21. The three [check] constraints on [name] reject nothing: each is a
    disjunction of a lower and an upper bound that every length meets, so
    the empty name, a name of any length and a NULL name all pass (and the
    constraint called [email] never looks at the email). *)
Theorem name_checks_accept_everything (name : option string) :
  Schema.check_passes (Schema.users_email_check name) = true ∧
  Schema.check_passes (Schema.users_name_check name) = true ∧
  Schema.check_passes (Schema.items_name_check name) = true.
Proof.
  unfold Schema.users_email_check, Schema.users_name_check, Schema.items_name_check.
  destruct name as [s|]; [| done].
  change (Schema.char_length (Some s)) with (Some (String.length s)).
  by rewrite !sql_or_bounds by lia.
Qed.

Lemma users_checks_pass (row : Schema.profile) : Schema.users_checks row = None.
Proof.
  unfold Schema.users_checks.
  destruct (name_checks_accept_everything (Schema.profile_name row)) as (-> & -> & _).
  done.
Qed.

(** X22. [handle_new_user] fails only when a profile with the new
    identity's id already exists; otherwise it adds exactly one row, under
    that id, with the identity's email and the [full_name] of its
    metadata as name, and leaves every other row as it was. *)
Theorem new_user_trigger (new : Schema.auth_user) (users : gmap string Schema.profile) :
  match users !! Schema.auth_id new with
  | Some _ => Schema.handle_new_user new users = inl Schema.UniqueViolation
  | None =>
      ∃ users',
        Schema.handle_new_user new users = inr users' ∧
        users' !! Schema.auth_id new
        = Some (Schema.Profile (Schema.auth_email new) (Schema.full_name new)) ∧
        (∀ id, id ≠ Schema.auth_id new → users' !! id = users !! id)
  end.
Proof.
  unfold Schema.handle_new_user. rewrite users_checks_pass.
  destruct (users !! Schema.auth_id new) eqn:Hlookup; [done |].
  eexists. split; [reflexivity |]. split; [apply lookup_insert_eq |].
  intros id Hid. by rewrite lookup_insert_ne.
Qed.

(** X23. [handle_update_user] never fails. It changes only the email of
    the row with the identity's id, keeping its name and every other row,
    and creates no row: when that profile does not exist yet the new email
    is recorded nowhere. Running it twice is the same as running it
    once. *)
Theorem update_user_trigger (new : Schema.auth_user) (users : gmap string Schema.profile) :
  ∃ users',
    Schema.handle_update_user new users = inr users' ∧
    users' !! Schema.auth_id new
    = (λ old, Schema.Profile (Schema.auth_email new) (Schema.profile_name old))
        <$> users !! Schema.auth_id new ∧
    (∀ id, id ≠ Schema.auth_id new → users' !! id = users !! id) ∧
    dom users' = dom users ∧
    Schema.handle_update_user new users' = inr users'.
Proof.
  unfold Schema.handle_update_user.
  destruct (users !! Schema.auth_id new) as [old|] eqn:Hlookup.
  - rewrite users_checks_pass. eexists. split; [reflexivity |].
    rewrite lookup_insert_eq. simpl. rewrite users_checks_pass.
    split; [done |]. split; [| split].
    + intros id Hid. by rewrite lookup_insert_ne.
    + apply dom_insert_lookup_L. by rewrite Hlookup.
    + by rewrite insert_insert_eq.
  - exists users. rewrite Hlookup. done.
Qed.

(** X24. The two triggers in sequence: after a sign-up has created the
    profile and a confirmed email change has updated it, the profile of
    that identity has the new email and still the name taken from the
    sign-up metadata. *)
Theorem sign_up_then_email_change (new changed : Schema.auth_user)
  (users : gmap string Schema.profile) :
  users !! Schema.auth_id new = None →
  Schema.auth_id changed = Schema.auth_id new →
  ∃ created updated,
    Schema.handle_new_user new users = inr created ∧
    Schema.handle_update_user changed created = inr updated ∧
    updated !! Schema.auth_id new
    = Some (Schema.Profile (Schema.auth_email changed) (Schema.full_name new)) ∧
    dom updated = {[ Schema.auth_id new ]} ∪ dom users.
Proof.
  intros Hfresh Hid.
  unfold Schema.handle_new_user, Schema.handle_update_user.
  rewrite users_checks_pass, Hfresh, Hid. eexists. eexists.
  split; [reflexivity |]. rewrite lookup_insert_eq, users_checks_pass.
  split; [reflexivity |]. simpl. rewrite lookup_insert_eq.
  split; [done |]. by rewrite insert_insert_eq, dom_insert_L.
Qed.

Lemma sign_up_then_email_change_witness :
  let new := Schema.AuthUser "7d1c" (Some "ada@example.com") (Some "Ada") in
  let changed := Schema.AuthUser "7d1c" (Some "ada@lovelace.org") None in
  ∃ created updated,
    Schema.handle_new_user new ∅ = inr created ∧
    Schema.handle_update_user changed created = inr updated ∧
    updated !! "7d1c" = Some (Schema.Profile (Some "ada@lovelace.org") (Some "Ada")).
Proof.
  intros new changed.
  destruct (sign_up_then_email_change new changed ∅)
    as (created & updated & Hcreated & Hupdated & Hrow & _).
  - vm_compute. reflexivity.
  - reflexivity.
  - exists created, updated. split; [exact Hcreated |]. split; [exact Hupdated |].
    exact Hrow.
Defined.
